(** * Voice-driven image studio: the session manager of [src/App.tsx]

    A shallow embedding of the [App] component: its React state, its
    refs, and the callbacks that start and stop the voice session, handle
    inbound live messages, and run the two creative actions.

    Conventions of the embedding.
    - JavaScript numbers that hold times (the playback cursor,
      [ctx.currentTime], [buffer.duration]) are rationals.  The theorems
      use only the order properties of [max] and [+].
    - Calls that leave the component (Web Audio, the media stream, the
      live session, the generation endpoint, the console) are appended
      to a chronological [trace].
    - A function declared in the body of [App] closes over the state of
      the render that created it.  Such functions take that render as
      their first argument [r]; refs and state setters always act on
      the current machine.
    - An [await] is resolved inside the step that contains it, to the
      value or the rejection the function is given as an argument; a
      rejection outside any [try] ends the function with it.  A
      callback registered with [promise.then] on a settled promise runs
      after the synchronous part of the function that registered it.
    - [utils/audioUtils] is not part of the sources at hand: decoding an
      audio payload is a parameter of the development, and it always
      yields a buffer. *)

From Stdlib Require Import List String Ascii Bool Arith NArith ZArith.
From Stdlib Require Import QArith Qminmax Lia Sorted.
Import ListNotations.

#[local] Close Scope Q_scope.
#[local] Open Scope list_scope.
#[local] Open Scope string_scope.

(** ** Data model ([types.ts]) *)

Inductive AppStatus : Type :=
| IDLE
| GENERATING
| EDITING
| VOICE_CONNECTING
| VOICE_ACTIVE.

Module HistoryItem.
(** [base64] is an option because the value stored at run time is
    [part.inlineData.data] or [split(',')[1]], either of which may be
    [undefined]. *)
Record t : Type := mk {
  url : string;
  base64 : option string;
  timestamp : string
}.
End HistoryItem.

Module ImageState.
Record t : Type := mk {
  url : option string;
  base64 : option string;
  timestamp : option string;
  history : list HistoryItem.t
}.
End ImageState.

(** The four [useState] cells, as one render sees them. *)
Record Render : Type := mkRender {
  status : AppStatus;
  imageState : ImageState.t;
  isLiveActive : bool;
  aiResponseText : string
}.

(** ** Objects of the platform *)

Inductive AudioContextState : Type := suspended | running | closed.

Record AudioContext : Type := mkAudioContext {
  ctx_id : nat;
  ctx_sampleRate : N;
  ctx_state : AudioContextState
}.

Record AudioContexts : Type := mkAudioContexts {
  input : AudioContext;
  output : AudioContext
}.

(** An [AudioBuffer]: [duration] is [length / sampleRate]. *)
Record AudioBuffer : Type := mkAudioBuffer {
  buf_length : N;
  buf_sampleRate : positive
}.

Definition duration (b : AudioBuffer) : Q :=
  Z.of_N (buf_length b) # buf_sampleRate b.

(** A buffer source, with the time passed to its [start]. *)
Record AudioBufferSourceNode : Type := mkNode {
  node_id : nat;
  node_buffer : AudioBuffer;
  node_when : Q
}.

Record MediaStream : Type := mkMediaStream {
  getTracks : list nat
}.

(** What [await navigator.mediaDevices.getUserMedia({ audio: true })]
    yields: the stream, or a rejection (permission denied, no
    device). *)
Inductive UserMedia : Type :=
| Granted (stream : MediaStream)
| Denied (reason : string).

(** The five [useRef] cells.  [sourcesRef] is a JS [Set]: insertion
    ordered; [sessionRef] holds the promise of the live session,
    identified by the number of its connection. *)
Record Refs : Type := mkRefs {
  audioContextRef : option AudioContexts;
  nextStartTimeRef : Q;
  sourcesRef : list AudioBufferSourceNode;
  sessionRef : option nat;
  streamRef : option MediaStream
}.

(** ** Calls that leave the component

    [LiveConnect] records, with the number of the connection, the
    render whose [onopen], [onmessage], [onerror] and [onclose] were
    handed to [ai.live.connect]. *)

Inductive Effect : Type :=
| NewAudioContext (cid : nat) (rate : N)
| LiveConnect (sid : nat) (callbacks : Render)
| CaptureWired (sid : nat)
| SessionClose (sid : nat)
| TrackStop (tid : nat)
| ContextClose (cid : nat)
| SourceStart (nid : nat) (when : Q)
| SourceStop (nid : nat)
| SendToolResponse (sid : nat) (id name result : string)
| GenerateContent (image : option string) (text : string)
| ConsoleError (label : string).

Record World : Type := mkWorld {
  fresh : nat;
  trace : list Effect
}.

Record Machine : Type := mkMachine {
  react : Render;
  refs : Refs;
  world : World
}.

(** ** Inbound data *)

Record InlineData : Type := mkInlineData {
  data : option string
}.

Record Part : Type := mkPart {
  inlineData : option InlineData;
  text : option string
}.

Record Content : Type := mkContent {
  parts : list Part
}.

Record Transcription : Type := mkTranscription {
  transcription_text : string
}.

Record LiveServerContent : Type := mkServerContent {
  modelTurn : option Content;
  outputTranscription : option Transcription;
  interrupted : bool
}.

Record Args : Type := mkArgs {
  prompt : string;
  textContent : option string
}.

Record FunctionCall : Type := mkFunctionCall {
  id : string;
  name : string;
  args : Args
}.

Record LiveServerMessage : Type := mkMessage {
  serverContent : option LiveServerContent;
  toolCall : option (list FunctionCall)
}.

(** What [await ai.models.generateContent(...)] yields: a rejection, or
    a response with its candidates (each one the parts of its
    content). *)
Inductive GenerateContentResponse : Type :=
| Rejected (reason : string)
| Resolved (candidates : list Content).

(** ** State setters *)

Definition with_react (f : Render -> Render) (m : Machine) : Machine :=
  mkMachine (f (react m)) (refs m) (world m).

Definition with_refs (f : Refs -> Refs) (m : Machine) : Machine :=
  mkMachine (react m) (f (refs m)) (world m).

Definition with_world (f : World -> World) (m : Machine) : Machine :=
  mkMachine (react m) (refs m) (f (world m)).

Definition setStatus (v : AppStatus) : Machine -> Machine :=
  with_react (fun r =>
    mkRender v (imageState r) (isLiveActive r) (aiResponseText r)).

Definition setImageState (f : ImageState.t -> ImageState.t)
  : Machine -> Machine :=
  with_react (fun r =>
    mkRender (status r) (f (imageState r)) (isLiveActive r)
             (aiResponseText r)).

Definition setIsLiveActive (v : bool) : Machine -> Machine :=
  with_react (fun r =>
    mkRender (status r) (imageState r) v (aiResponseText r)).

Definition setAiResponseText (v : string) : Machine -> Machine :=
  with_react (fun r =>
    mkRender (status r) (imageState r) (isLiveActive r) v).

Definition set_audioContextRef (v : option AudioContexts)
  : Machine -> Machine :=
  with_refs (fun x =>
    mkRefs v (nextStartTimeRef x) (sourcesRef x) (sessionRef x)
           (streamRef x)).

Definition set_nextStartTimeRef (v : Q) : Machine -> Machine :=
  with_refs (fun x =>
    mkRefs (audioContextRef x) v (sourcesRef x) (sessionRef x)
           (streamRef x)).

Definition set_sourcesRef (v : list AudioBufferSourceNode)
  : Machine -> Machine :=
  with_refs (fun x =>
    mkRefs (audioContextRef x) (nextStartTimeRef x) v (sessionRef x)
           (streamRef x)).

Definition set_sessionRef (v : option nat) : Machine -> Machine :=
  with_refs (fun x =>
    mkRefs (audioContextRef x) (nextStartTimeRef x) (sourcesRef x) v
           (streamRef x)).

Definition set_streamRef (v : option MediaStream) : Machine -> Machine :=
  with_refs (fun x =>
    mkRefs (audioContextRef x) (nextStartTimeRef x) (sourcesRef x)
           (sessionRef x) v).

Definition log (e : Effect) : Machine -> Machine :=
  with_world (fun w => mkWorld (fresh w) (trace w ++ [e])%list).

Definition bump : Machine -> Machine :=
  with_world (fun w => mkWorld (S (fresh w)) (trace w)).

(** The component as first mounted. *)
Definition initialImageState : ImageState.t :=
  ImageState.mk None None None [].

Definition initialRender : Render :=
  mkRender IDLE initialImageState false "".

Definition initialRefs : Refs :=
  mkRefs None 0%Q [] None None.

Definition initialMachine : Machine :=
  mkMachine initialRender initialRefs (mkWorld 0 []).

(** ** Control: completions, exceptions, [try] *)

Inductive Completion (A : Type) : Type :=
| Normal (a : A)
| Throw (e : string).

Arguments Normal {A} a.
Arguments Throw {A} e.

Definition Js (A : Type) : Type := Machine -> Completion A * Machine.

Definition ret {A : Type} (a : A) : Js A := fun m => (Normal a, m).

Definition throw {A : Type} (e : string) : Js A := fun m => (Throw e, m).

Definition bind {A B : Type} (c : Js A) (k : A -> Js B) : Js B :=
  fun m =>
    match c m with
    | (Normal a, m') => k a m'
    | (Throw e, m') => (Throw e, m')
    end.

Notation "x <- c ;; k" := (bind c (fun x => k))
  (at level 61, c at next level, right associativity).
Notation "c ;; k" := (bind c (fun _ => k))
  (at level 61, right associativity).

Definition get {A : Type} (f : Machine -> A) : Js A :=
  fun m => (Normal (f m), m).

Definition modify (f : Machine -> Machine) : Js unit :=
  fun m => (Normal tt, f m).

Definition emit (e : Effect) : Js unit := modify (log e).

Definition allocate : Js nat :=
  n <- get (fun m => fresh (world m)) ;;
  modify bump ;;
  ret n.

(** [try { body } catch (e) { handler }] *)
Definition try_catch (body : Js unit) (handler : string -> Js unit)
  : Js unit :=
  fun m =>
    match body m with
    | (Normal a, m') => (Normal a, m')
    | (Throw e, m') => handler e m'
    end.

(** [try { body } finally { fin }] *)
Definition try_finally (body fin : Js unit) : Js unit :=
  fun m =>
    match body m with
    | (Normal _, m') => fin m'
    | (Throw e, m') =>
        match fin m' with
        | (Normal _, m'') => (Throw e, m'')
        | (Throw e', m'') => (Throw e', m'')
        end
    end.

Fixpoint forEach {A : Type} (f : A -> Js unit) (l : list A) : Js unit :=
  match l with
  | [] => ret tt
  | x :: rest => f x ;; forEach f rest
  end.

(** JavaScript truthiness of a possibly missing string. *)
Definition truthy (s : option string) : bool :=
  match s with
  | Some v => negb (v =? "")
  | None => false
  end.

(** [`${x}`] for a possibly missing string. *)
Definition interpolate (s : option string) : string :=
  match s with
  | Some v => v
  | None => "undefined"
  end.

(** ** Sample data for the concrete runs *)

(** A decoder that yields a tenth of a second (2400 frames at 24 kHz)
    per character of payload. *)
Definition sampleFrames (payload : string) : N :=
  (2400 * N.of_nat (String.length payload))%N.

Definition neverRaises {A : Type} (_ : A) : bool := false.

Definition evenRaises (s : AudioBufferSourceNode) : bool :=
  Nat.even (node_id s).

Definition sampleStream : MediaStream := mkMediaStream [7].

(** The machine after [startVoiceSession] on the mounted component and
    the [onopen] of the session it connected. *)
Definition liveMachine : Machine :=
  mkMachine (mkRender VOICE_ACTIVE initialImageState true "")
    (mkRefs
       (Some (mkAudioContexts (mkAudioContext 0 16000 running)
                (mkAudioContext 1 24000 running)))
       0%Q [] (Some 2) (Some sampleStream))
    (mkWorld 3
       [NewAudioContext 0 16000; NewAudioContext 1 24000;
        LiveConnect 2 initialRender;
        CaptureWired 2]).

(** The same, with two sources in the set and the cursor at their end. *)
Definition playingMachine : Machine :=
  mkMachine (react liveMachine)
    (mkRefs (audioContextRef (refs liveMachine)) (3 # 5)%Q
       [mkNode 3 (mkAudioBuffer 9600 24000) 0%Q;
        mkNode 4 (mkAudioBuffer 4800 24000) (2 # 5)%Q]
       (Some 2) (Some sampleStream))
    (mkWorld 5 (trace (world liveMachine))).

Definition audioMessage (payload : string) (interrupt : bool)
  : LiveServerMessage :=
  mkMessage
    (Some (mkServerContent
             (Some (mkContent
                      [mkPart (Some (mkInlineData (Some payload))) None]))
             None interrupt))
    None.

Definition toolMessage (calls : list FunctionCall) : LiveServerMessage :=
  mkMessage None (Some calls).

Definition sampleInbound : list (Q * LiveServerMessage) :=
  [(0%Q, audioMessage "abcd" false);
   ((1 # 10)%Q, audioMessage "ef" false);
   (2%Q, audioMessage "g" false)].

Definition generateCall : FunctionCall :=
  mkFunctionCall "call-1" "generateImage" (mkArgs "neon skyline" None).

Definition posterCall : FunctionCall :=
  mkFunctionCall "call-2" "posterLayout" (mkArgs "grid" (Some "SALE")).

Definition emptyPosterCall : FunctionCall :=
  mkFunctionCall "call-3" "posterLayout" (mkArgs "grid" (Some "")).

Definition unknownCall : FunctionCall :=
  mkFunctionCall "call-4" "zoomImage" (mkArgs "closer" None).

(** A response with text only, and one whose second part is an image. *)
Definition textOnly : GenerateContentResponse :=
  Resolved [mkContent [mkPart None (Some "no image")]].

Definition oneImage (d : string) : GenerateContentResponse :=
  Resolved [mkContent [mkPart None (Some "here it is");
                       mkPart (Some (mkInlineData (Some d))) None]].

Definition entry (n : nat) : HistoryItem.t :=
  let tag := String (ascii_of_nat (65 + n)) "" in
  HistoryItem.mk ("data:image/png;base64," ++ tag) (Some tag) "09:00:00".

(** A render that shows an image, with [n] entries of history. *)
Definition paintedRender (n : nat) : Render :=
  mkRender IDLE
    (ImageState.mk (Some "data:image/png;base64,A") (Some "A")
       (Some "09:00:00") (map entry (seq 0 n)))
    false "".

Definition paintedMachine (n : nat) : Machine :=
  mkMachine (paintedRender n) initialRefs (mkWorld 0 []).

(** ** The component *)

Section App.

(** [decodeAudioData(decode(payload), ctx, 24000, 1)] lives in
    [utils/audioUtils]; all that is used of it here is the number of
    sample frames of the buffer it returns. *)
Variable decoded_frames : string -> N.

(** Whether [stop()] raises on a given source (a source that has
    already finished, for instance), and whether [close()] raises on a
    given session. *)
Variable stop_raises : AudioBufferSourceNode -> bool.
Variable close_raises : nat -> bool.

Definition decodeAudioData (payload : string) : AudioBuffer :=
  mkAudioBuffer (decoded_frames payload) 24000.

(** *** Image generation and editing *)

(** The body of [if (part.inlineData) { ... }], shared by the two
    actions; [ts] is what [getTimestamp()] returns. *)
Definition adoptImage (d : InlineData) (ts : string) : Js unit :=
  let url := "data:image/png;base64," ++ interpolate (data d) in
  let base64 := data d in
  let newItem := HistoryItem.mk url base64 ts in
  modify (setImageState (fun prev =>
    ImageState.mk (Some url) base64 (Some ts)
      (firstn 10 (newItem :: ImageState.history prev)))).

(** [for (const part of ...parts) { if (part.inlineData) { ...; break } }] *)
Fixpoint scanParts (ts : string) (ps : list Part) : Js unit :=
  match ps with
  | [] => ret tt
  | part :: rest =>
      match inlineData part with
      | Some d => adoptImage d ts
      | None => scanParts ts rest
      end
  end.

(** The awaited response, then [response.candidates[0].content.parts]. *)
Definition readResponse (ts : string) (resp : GenerateContentResponse)
  : Js unit :=
  match resp with
  | Rejected reason => throw reason
  | Resolved [] => throw "TypeError"
  | Resolved (candidate :: _) => scanParts ts (parts candidate)
  end.

(** [setStatus(isLiveActive ? VOICE_ACTIVE : IDLE)], with the
    [isLiveActive] of the enclosing render. *)
Definition restoreStatus (r : Render) : Js unit :=
  modify (setStatus (if isLiveActive r then VOICE_ACTIVE else IDLE)).

(** [generateImage] up to its [await]. *)
Definition generateImage_request (prompt : string) : Js unit :=
  modify (setStatus GENERATING) ;;
  emit (GenerateContent None ("High quality, aesthetic, " ++ prompt)).

(** [generateImage] from its [await] on. *)
Definition generateImage_settle (r : Render) (ts : string)
  (resp : GenerateContentResponse) : Js unit :=
  try_finally
    (try_catch (readResponse ts resp)
       (fun _ => emit (ConsoleError "生成失败:")))
    (restoreStatus r).

Definition generateImage (r : Render) (prompt ts : string)
  (resp : GenerateContentResponse) : Js unit :=
  generateImage_request prompt ;;
  generateImage_settle r ts resp.

(** [editImage] up to its [await]; [false] when it returned at the
    guard. *)
Definition editImage_request (r : Render) (prompt : string) : Js bool :=
  if negb (truthy (ImageState.base64 (imageState r))) then ret false
  else
    modify (setStatus EDITING) ;;
    emit (GenerateContent (ImageState.base64 (imageState r))
            ("Modify the image based on this: " ++ prompt)) ;;
    ret true.

Definition editImage_settle (r : Render) (ts : string)
  (resp : GenerateContentResponse) : Js unit :=
  try_finally
    (try_catch (readResponse ts resp)
       (fun _ => emit (ConsoleError "编辑失败:")))
    (restoreStatus r).

Definition editImage (r : Render) (prompt ts : string)
  (resp : GenerateContentResponse) : Js unit :=
  pending <- editImage_request r prompt ;;
  if pending : bool then editImage_settle r ts resp else ret tt.

(** *** Stopping the session *)

Definition source_stop (s : AudioBufferSourceNode) : Js unit :=
  emit (SourceStop (node_id s)) ;;
  if stop_raises s then throw "InvalidStateError" else ret tt.

(** [sourcesRef.current.forEach(s => { try { s.stop(); } catch(e) {} })] *)
Definition stopSources : Js unit :=
  sources <- get (fun m => sourcesRef (refs m)) ;;
  forEach (fun s => try_catch (source_stop s) (fun _ => ret tt)) sources.

Definition session_close (sid : nat) : Js unit :=
  emit (SessionClose sid) ;;
  if close_raises sid then throw "Error" else ret tt.

(** [t.stop()] on a media stream track raises nothing. *)
Definition track_stop (tid : nat) : Js unit := emit (TrackStop tid).

(** [if (c.state !== 'closed') c.close().catch(() => {})] *)
Definition closeContext (c : AudioContext) : Js unit :=
  match ctx_state c with
  | closed => ret tt
  | _ => emit (ContextClose (ctx_id c))
  end.

Definition stopVoiceSession : Js unit :=
  (* 1. session *)
  session <- get (fun m => sessionRef (refs m)) ;;
  match session with
  | Some _ => modify (set_sessionRef None)
  | None => ret tt
  end ;;
  (* 2. microphone tracks *)
  stream <- get (fun m => streamRef (refs m)) ;;
  match stream with
  | Some s => forEach track_stop (getTracks s) ;; modify (set_streamRef None)
  | None => ret tt
  end ;;
  (* 3. audio contexts *)
  contexts <- get (fun m => audioContextRef (refs m)) ;;
  match contexts with
  | Some c =>
      closeContext (input c) ;;
      closeContext (output c) ;;
      modify (set_audioContextRef None)
  | None => ret tt
  end ;;
  (* 4. playing sources *)
  stopSources ;;
  modify (set_sourcesRef []) ;;
  modify (set_nextStartTimeRef 0%Q) ;;
  (* 5. UI state *)
  modify (setIsLiveActive false) ;;
  modify (setStatus IDLE) ;;
  modify (setAiResponseText "") ;;
  (* the callback given to [sessionRef.current.then] in step 1 *)
  match session with
  | Some sid => try_catch (session_close sid) (fun _ => ret tt)
  | None => ret tt
  end.

(** *** Starting the session *)

Definition newAudioContext (rate : N) : Js AudioContext :=
  cid <- allocate ;;
  emit (NewAudioContext cid rate) ;;
  ret (mkAudioContext cid rate running).

(** [media] is what [getUserMedia] yields.  The [await] on line 167
    stands outside any [try]: on a rejection the function ends there,
    with that exception. *)
Definition startVoiceSession (r : Render) (media : UserMedia)
  : Js unit :=
  if isLiveActive r then stopVoiceSession
  else
    modify (setStatus VOICE_CONNECTING) ;;
    inputCtx <- newAudioContext 16000 ;;
    outputCtx <- newAudioContext 24000 ;;
    modify (set_audioContextRef (Some (mkAudioContexts inputCtx outputCtx))) ;;
    match media with
    | Denied reason => throw reason
    | Granted stream =>
        modify (set_streamRef (Some stream)) ;;
        sid <- allocate ;;
        emit (LiveConnect sid r) ;;
        modify (set_sessionRef (Some sid))
    end.

Definition onopen (sid : nat) : Js unit :=
  modify (setIsLiveActive true) ;;
  modify (setStatus VOICE_ACTIVE) ;;
  emit (CaptureWired sid).

Definition onerror (sid : nat) : Js unit :=
  emit (ConsoleError "Session Error:") ;;
  stopVoiceSession.

Definition onclose (sid : nat) : Js unit := stopVoiceSession.

(** *** Inbound messages *)

(** [msg.serverContent?.modelTurn?.parts[0]?.inlineData?.data] *)
Definition audioBase64 (msg : LiveServerMessage) : option string :=
  match serverContent msg with
  | Some sc =>
      match modelTurn sc with
      | Some turn =>
          match parts turn with
          | part :: _ =>
              match inlineData part with
              | Some d => data d
              | None => None
              end
          | [] => None
          end
      | None => None
      end
  | None => None
  end.

(** Lines 193-201; [now] is [ctx.currentTime] as read on line 194.  The
    source is a new object, so [Set.add] puts it last. *)
Definition schedule (now : Q) (payload : string) : Js unit :=
  cursor <- get (fun m => nextStartTimeRef (refs m)) ;;
  modify (set_nextStartTimeRef (Qmax cursor now)) ;;
  let buffer := decodeAudioData payload in
  nid <- allocate ;;
  when <- get (fun m => nextStartTimeRef (refs m)) ;;
  emit (SourceStart nid when) ;;
  modify (set_nextStartTimeRef (when + duration buffer)%Q) ;;
  sources <- get (fun m => sourcesRef (refs m)) ;;
  modify (set_sourcesRef (sources ++ [mkNode nid buffer when])%list).

(** The prompt handed to [editImage] on line 213. *)
Definition editPrompt (a : Args) : string :=
  prompt a ++
  (if truthy (textContent a)
   then ". Text to add: " ++ interpolate (textContent a)
   else "").

(** Lines 210-214: the calls are not awaited, so each runs up to its
    own [await]. *)
Definition dispatch (r : Render) (fc : FunctionCall) : Js unit :=
  if name fc =? "generateImage" then
    generateImage_request (prompt (args fc))
  else if (name fc =? "editImage") || (name fc =? "posterLayout") then
    editImage_request r (editPrompt (args fc)) ;; ret tt
  else ret tt.

(** Lines 216-222: the callback given to [sessionPromise.then], where
    [sid] is the session the handler belongs to. *)
Definition respond (sid : nat) (fc : FunctionCall) : Js unit :=
  session <- get (fun m => sessionRef (refs m)) ;;
  match session with
  | Some _ => emit (SendToolResponse sid (id fc) (name fc) "ok")
  | None => ret tt
  end.

Definition functionCalls (msg : LiveServerMessage) : list FunctionCall :=
  match toolCall msg with
  | Some calls => calls
  | None => []
  end.

Definition isInterrupted (msg : LiveServerMessage) : bool :=
  match serverContent msg with
  | Some sc => interrupted sc
  | None => false
  end.

(** The [onmessage] callback of the session [sid], created by the
    [startVoiceSession] of render [r]. *)
Definition onmessage (r : Render) (sid : nat) (now : Q)
  (msg : LiveServerMessage) : Js unit :=
  contexts <- get (fun m => audioContextRef (refs m)) ;;
  match audioBase64 msg, contexts with
  | Some payload, Some _ =>
      if payload =? "" then ret tt else schedule now payload
  | _, _ => ret tt
  end ;;
  match serverContent msg with
  | Some sc =>
      match outputTranscription sc with
      | Some t => modify (setAiResponseText (transcription_text t))
      | None => ret tt
      end
  | None => ret tt
  end ;;
  forEach (dispatch r) (functionCalls msg) ;;
  (if isInterrupted msg then
     stopSources ;;
     modify (set_sourcesRef []) ;;
     modify (set_nextStartTimeRef 0%Q)
   else ret tt) ;;
  (* the [then] callbacks registered in the loop *)
  forEach (respond sid) (functionCalls msg).

(** The render whose callbacks connection [sid] was given. *)
Fixpoint callbacksOf (t : list Effect) (sid : nat) : option Render :=
  match t with
  | [] => None
  | LiveConnect s r :: rest =>
      if Nat.eqb s sid then Some r else callbacksOf rest sid
  | _ :: rest => callbacksOf rest sid
  end.

(** The transport hands [msg] to the [onmessage] of connection [sid]. *)
Definition deliver (sid : nat) (now : Q) (msg : LiveServerMessage)
  : Js unit :=
  fun m =>
    match callbacksOf (trace (world m)) sid with
    | Some r => onmessage r sid now msg m
    | None => (Normal tt, m)
    end.

(** *** Manual input and history *)

(** [result.split(',')] *)
Fixpoint split (sep : ascii) (s : string) : list string :=
  match s with
  | EmptyString => [EmptyString]
  | String c rest =>
      if Ascii.eqb c sep then EmptyString :: split sep rest
      else
        match split sep rest with
        | head :: others => String c head :: others
        | [] => [String c EmptyString]
        end
  end.

(** [file] is [e.target.files?.[0]], given by the data URL that
    [readAsDataURL] produces for it; the body of [reader.onload] reads
    the [imageState] of the render that created the handler. *)
Definition handleImageUpload (r : Render) (file : option string)
  (ts : string) : Js unit :=
  match file with
  | Some result =>
      let base64 := nth_error (split "," result) 1 in
      let url := result in
      modify (setImageState (fun _ =>
        ImageState.mk (Some url) base64 (Some ts)
          (firstn 10 (HistoryItem.mk url base64 ts
                        :: ImageState.history (imageState r)))))
  | None => ret tt
  end.

Definition selectFromHistory (item : HistoryItem.t) : Js unit :=
  modify (setImageState (fun prev =>
    ImageState.mk (Some (HistoryItem.url item)) (HistoryItem.base64 item)
      (Some (HistoryItem.timestamp item)) (ImageState.history prev))).

(** ** Observations *)

(** The state that belongs to the voice session. *)
Definition voiceState (m : Machine) :=
  (sessionRef (refs m), streamRef (refs m), audioContextRef (refs m),
   sourcesRef (refs m), nextStartTimeRef (refs m),
   isLiveActive (react m), status (react m), aiResponseText (react m)).

(** What a step added to the trace. *)
Definition added (before after : Machine) : list Effect :=
  skipn (List.length (trace (world before))) (trace (world after)).

Definition toolResponse (e : Effect)
  : list (nat * string * string * string) :=
  match e with
  | SendToolResponse sid i n res => [(sid, i, n, res)]
  | _ => []
  end.

Definition sourceStop (e : Effect) : list nat :=
  match e with
  | SourceStop nid => [nid]
  | _ => []
  end.

Definition request (e : Effect) : list (option string * string) :=
  match e with
  | GenerateContent image txt => [(image, txt)]
  | _ => []
  end.

Definition consoleError (e : Effect) : list string :=
  match e with
  | ConsoleError label => [label]
  | _ => []
  end.

(** Sessions connected and not yet closed, oldest first. *)
Definition sessionStep (live : list nat) (e : Effect) : list nat :=
  match e with
  | LiveConnect sid _ => (live ++ [sid])%list
  | SessionClose sid => filter (fun x => negb (Nat.eqb x sid)) live
  | _ => live
  end.

Definition openSessions (t : list Effect) : list nat :=
  fold_left sessionStep t [].

Definition connect (e : Effect) : list nat :=
  match e with
  | LiveConnect sid _ => [sid]
  | _ => []
  end.

(** Two sources scheduled one after the other do not overlap. *)
Definition follows (a b : AudioBufferSourceNode) : Prop :=
  (node_when a + duration (node_buffer a) <= node_when b)%Q /\
  (node_when a <= node_when b)%Q.


(** The image a response carries: the first part with inline data of
    its first candidate. *)
Fixpoint firstInline (ps : list Part) : option InlineData :=
  match ps with
  | [] => None
  | part :: rest =>
      match inlineData part with
      | Some d => Some d
      | None => firstInline rest
      end
  end.

Definition firstImage (resp : GenerateContentResponse)
  : option InlineData :=
  match resp with
  | Resolved (candidate :: _) => firstInline (parts candidate)
  | _ => None
  end.

(** The request threw: it was rejected, or reading
    [response.candidates[0]] failed. *)
Definition threw (resp : GenerateContentResponse) : bool :=
  match resp with
  | Rejected _ => true
  | Resolved [] => true
  | Resolved (_ :: _) => false
  end.

Definition artifact (d : InlineData) (ts : string) : HistoryItem.t :=
  HistoryItem.mk ("data:image/png;base64," ++ interpolate (data d))
    (data d) ts.

Definition uploaded (result ts : string) : HistoryItem.t :=
  HistoryItem.mk result (nth_error (split "," result) 1) ts.

(** [after] is [before] with [item] put in front and the capacity of
    ten enforced. *)
Definition recorded (item : HistoryItem.t)
  (before after : list HistoryItem.t) : Prop :=
  after = firstn 10 (item :: before) /\
  (List.length after <= 10)%nat /\
  nth_error after 0 = Some item /\
  ((List.length before < 10)%nat -> after = item :: before) /\
  (List.length before = 10%nat ->
   after = item :: removelast before /\ List.length after = 10%nat).

(** The inbound messages of a session, each with the reading of the
    output clock taken while it is handled. *)
Fixpoint onmessages (r : Render) (sid : nat)
  (inbound : list (Q * LiveServerMessage)) : Js unit :=
  match inbound with
  | [] => ret tt
  | (now, msg) :: rest => onmessage r sid now msg ;; onmessages r sid rest
  end.

(** Whether the dispatcher of lines 210-214 has a branch for the name
    of the call. *)
Definition knownTool (fc : FunctionCall) : bool :=
  (name fc =? "generateImage")
  || ((name fc =? "editImage") || (name fc =? "posterLayout")).

(** The message without the calls the dispatcher has no branch for. *)
Definition withoutUnknown (msg : LiveServerMessage) : LiveServerMessage :=
  mkMessage (serverContent msg) (option_map (filter knownTool) (toolCall msg)).

(** ** What each step leaves behind

    Closed forms of the machine after each part of the code above.
    The stepping lemmas below prove that the code computes them:
    [stopped] for [stopVoiceSession], [handled] for [onmessage],
    [settled] for the part of a creative action that follows its
    [await]. *)

Definition logs (es : list Effect) : Machine -> Machine :=
  with_world (fun w => mkWorld (fresh w) (trace w ++ es)%list).

Definition closing (c : AudioContext) : list Effect :=
  match ctx_state c with
  | closed => []
  | _ => [ContextClose (ctx_id c)]
  end.

Definition stopEffects (x : Refs) : list Effect :=
  (match streamRef x with
   | Some s => map TrackStop (getTracks s)
   | None => []
   end ++
   match audioContextRef x with
   | Some c => closing (input c) ++ closing (output c)
   | None => []
   end ++
   map (fun s => SourceStop (node_id s)) (sourcesRef x) ++
   match sessionRef x with
   | Some sid => [SessionClose sid]
   | None => []
   end)%list.

Definition stopped (m : Machine) : Machine :=
  mkMachine (mkRender IDLE (imageState (react m)) false "") initialRefs
    (mkWorld (fresh (world m)) (trace (world m) ++ stopEffects (refs m))%list).

Definition played (now : Q) (msg : LiveServerMessage) (m : Machine)
  : option AudioBufferSourceNode :=
  match audioBase64 msg, audioContextRef (refs m) with
  | Some payload, Some _ =>
      if payload =? "" then None
      else Some (mkNode (fresh (world m)) (decodeAudioData payload)
                   (Qmax (nextStartTimeRef (refs m)) now))
  | _, _ => None
  end.

Definition afterAudio (now : Q) (msg : LiveServerMessage) (m : Machine)
  : Machine :=
  match played now msg m with
  | Some s =>
      set_sourcesRef (sourcesRef (refs m) ++ [s])%list
        (set_nextStartTimeRef (node_when s + duration (node_buffer s))%Q
           (log (SourceStart (node_id s) (node_when s)) (bump m)))
  | None => m
  end.

Definition afterTranscription (msg : LiveServerMessage) (m : Machine)
  : Machine :=
  match serverContent msg with
  | Some sc =>
      match outputTranscription sc with
      | Some t => setAiResponseText (transcription_text t) m
      | None => m
      end
  | None => m
  end.

Definition requestOf (r : Render) (fc : FunctionCall) : list Effect :=
  if name fc =? "generateImage" then
    [GenerateContent None ("High quality, aesthetic, " ++ prompt (args fc))]
  else if (name fc =? "editImage") || (name fc =? "posterLayout") then
    if truthy (ImageState.base64 (imageState r)) then
      [GenerateContent (ImageState.base64 (imageState r))
         ("Modify the image based on this: " ++ editPrompt (args fc))]
    else []
  else [].

Definition statusAfter (r : Render) (st : AppStatus) (fc : FunctionCall)
  : AppStatus :=
  if name fc =? "generateImage" then GENERATING
  else if (name fc =? "editImage") || (name fc =? "posterLayout") then
    if truthy (ImageState.base64 (imageState r)) then EDITING else st
  else st.

Definition afterDispatch (r : Render) (fcs : list FunctionCall)
  (m : Machine) : Machine :=
  logs (flat_map (requestOf r) fcs)
    (setStatus (fold_left (statusAfter r) fcs (status (react m))) m).

Definition afterInterrupt (msg : LiveServerMessage) (m : Machine)
  : Machine :=
  if isInterrupted msg then
    set_nextStartTimeRef 0%Q
      (set_sourcesRef []
         (logs (map (fun s => SourceStop (node_id s)) (sourcesRef (refs m)))
            m))
  else m.

Definition acknowledgement (sid : nat) (fc : FunctionCall) : Effect :=
  SendToolResponse sid (id fc) (name fc) "ok".

Definition afterRespond (sid : nat) (fcs : list FunctionCall)
  (m : Machine) : Machine :=
  logs (match sessionRef (refs m) with
        | Some _ => map (acknowledgement sid) fcs
        | None => []
        end) m.

Definition handled (r : Render) (sid : nat) (now : Q)
  (msg : LiveServerMessage) (m : Machine) : Machine :=
  afterRespond sid (functionCalls msg)
    (afterInterrupt msg
       (afterDispatch r (functionCalls msg)
          (afterTranscription msg (afterAudio now msg m)))).

Definition adopted (d : InlineData) (ts : string) (m : Machine) : Machine :=
  setImageState (fun prev =>
    ImageState.mk (Some (HistoryItem.url (artifact d ts))) (data d) (Some ts)
      (firstn 10 (artifact d ts :: ImageState.history prev))) m.

Definition settled (label : string) (r : Render) (ts : string)
  (resp : GenerateContentResponse) (m : Machine) : Machine :=
  setStatus (if isLiveActive r then VOICE_ACTIVE else IDLE)
    (match firstImage resp with
     | Some d => adopted d ts m
     | None => if threw resp then log (ConsoleError label) m else m
     end).

(** The source a message schedules, if any. *)
Definition scheduledBy (now : Q) (msg : LiveServerMessage) (m : Machine)
  : list AudioBufferSourceNode :=
  match played now msg m with
  | Some s => [s]
  | None => []
  end.

(** ** The component as a whole *)

(** The sessions a step asked to close. *)
Definition sessionClose (e : Effect) : list nat :=
  match e with
  | SessionClose sid => [sid]
  | _ => []
  end.

(** The sources a step started, each with its start time. *)
Definition sourceStart (e : Effect) : list (nat * Q) :=
  match e with
  | SourceStart nid when => [(nid, when)]
  | _ => []
  end.

Definition isRequest (e : Effect) : Prop :=
  exists image txt, e = GenerateContent image txt.

(** Whether the character [c] occurs in [s]. *)
Fixpoint occurs (c : ascii) (s : string) : bool :=
  match s with
  | EmptyString => false
  | String a rest => Ascii.eqb a c || occurs c rest
  end.

(** The [isLiveActive] seen by the callbacks a connection was given. *)
Definition callbacksFlag (e : Effect) : list bool :=
  match e with
  | LiveConnect _ r => [isLiveActive r]
  | _ => []
  end.

(** The tool declarations handed to the session (lines 119-152): the
    name of each tool, its parameters (all of type string) and those
    it requires. *)
Record FunctionDeclaration : Type := mkDeclaration {
  decl_name : string;
  decl_properties : list string;
  decl_required : list string
}.

Definition tools : list FunctionDeclaration :=
  [mkDeclaration "generateImage" ["prompt"] ["prompt"];
   mkDeclaration "editImage" ["prompt"] ["prompt"];
   mkDeclaration "posterLayout" ["prompt"; "textContent"]
     ["prompt"; "textContent"]].

(** What can happen to the mounted component.  A click on the
    microphone button runs the [startVoiceSession] of the current
    render, with what [getUserMedia] yields if it is asked; a message
    is handed to the callbacks its connection was given; a creative
    action settles, and a file is read, in the render [r] whose
    function was called. *)
Inductive Event : Type :=
| Click (media : UserMedia)
| SessionOpened (sid : nat)
| Inbound (sid : nat) (now : Q) (msg : LiveServerMessage)
| SessionErrored (sid : nat)
| SessionClosed (sid : nat)
| GenerateSettled (r : Render) (ts : string)
    (resp : GenerateContentResponse)
| EditSettled (r : Render) (ts : string) (resp : GenerateContentResponse)
| FileRead (r : Render) (file : option string) (ts : string)
| Picked (item : HistoryItem.t).

Definition handle (e : Event) : Js unit :=
  match e with
  | Click media => fun m => startVoiceSession (react m) media m
  | SessionOpened sid => onopen sid
  | Inbound sid now msg => deliver sid now msg
  | SessionErrored sid => onerror sid
  | SessionClosed sid => onclose sid
  | GenerateSettled r ts resp => generateImage_settle r ts resp
  | EditSettled r ts resp => editImage_settle r ts resp
  | FileRead r file ts => handleImageUpload r file ts
  | Picked item => selectFromHistory item
  end.

(** The events are handled one after the other.  An exception that
    escapes a handler ends that handler only: the next event is
    handled on the machine the handler left.  [run] gives the
    completion of each handler and the machine at the end. *)
Fixpoint run (events : list Event) (m : Machine)
  : list (Completion unit) * Machine :=
  match events with
  | [] => ([], m)
  | e :: rest =>
      let (c, m1) := handle e m in
      let (cs, m') := run rest m1 in
      (c :: cs, m')
  end.

(** The history fits its ten thumbnails. *)
Definition historyBounded (m : Machine) : Prop :=
  (List.length (ImageState.history (imageState (react m))) <= 10)%nat.

(** Every source in the set was numbered by the allocator, and no two
    share a number. *)
Definition sourcesDistinct (m : Machine) : Prop :=
  Forall (fun s => (node_id s < fresh (world m))%nat)
    (sourcesRef (refs m)) /\
  NoDup (map node_id (sourcesRef (refs m))).

(** [msg.serverContent?.outputTranscription], when present, by its
    text. *)
Definition transcriptionOf (msg : LiveServerMessage) : option string :=
  match serverContent msg with
  | Some sc => option_map transcription_text (outputTranscription sc)
  | None => None
  end.

(** The text of the last message that carried a transcription, and
    [before] when none did. *)
Fixpoint lastTranscription (before : string)
  (inbound : list (Q * LiveServerMessage)) : string :=
  match inbound with
  | [] => before
  | (_, msg) :: rest =>
      lastTranscription
        (match transcriptionOf msg with
         | Some t => t
         | None => before
         end) rest
  end.

(** The cursor is not negative, every source in the set ends at or
    before the cursor, and every source is followed by all those that
    were added after it. *)
Definition scheduleOrdered (m : Machine) : Prop :=
  (0 <= nextStartTimeRef (refs m))%Q /\
  Forall (fun s => (node_when s + duration (node_buffer s)
                    <= nextStartTimeRef (refs m))%Q)
    (sourcesRef (refs m)) /\
  StronglySorted follows (sourcesRef (refs m)).

(** The machine after [startVoiceSession] ran past its guard and
    [getUserMedia] rejected. *)
Definition refused (m : Machine) : Machine :=
  let f := fresh (world m) in
  mkMachine
    (mkRender VOICE_CONNECTING (imageState (react m))
       (isLiveActive (react m)) (aiResponseText (react m)))
    (mkRefs
       (Some (mkAudioContexts (mkAudioContext f 16000 running)
                (mkAudioContext (S f) 24000 running)))
       (nextStartTimeRef (refs m)) (sourcesRef (refs m))
       (sessionRef (refs m)) (streamRef (refs m)))
    (mkWorld (S (S f))
       (trace (world m)
        ++ [NewAudioContext f 16000; NewAudioContext (S f) 24000])%list).

(** The machine after [startVoiceSession] ran past its guard and
    [getUserMedia] gave the stream. *)
Definition started (r : Render) (stream : MediaStream) (m : Machine)
  : Machine :=
  let f := fresh (world m) in
  mkMachine
    (mkRender VOICE_CONNECTING (imageState (react m))
       (isLiveActive (react m)) (aiResponseText (react m)))
    (mkRefs
       (Some (mkAudioContexts (mkAudioContext f 16000 running)
                (mkAudioContext (S f) 24000 running)))
       (nextStartTimeRef (refs m)) (sourcesRef (refs m))
       (Some (S (S f))) (Some stream))
    (mkWorld (S (S (S f)))
       (trace (world m)
        ++ [NewAudioContext f 16000; NewAudioContext (S f) 24000;
            LiveConnect (S (S f)) r])%list).

(** What an event can do to playback: leave cursor and sources alone,
    clear them, or schedule one more source. *)
Inductive playbackStep (m m' : Machine) : Prop :=
| Untouched :
    nextStartTimeRef (refs m') = nextStartTimeRef (refs m) ->
    sourcesRef (refs m') = sourcesRef (refs m) ->
    (fresh (world m) <= fresh (world m'))%nat ->
    playbackStep m m'
| Cleared :
    nextStartTimeRef (refs m') = 0%Q ->
    sourcesRef (refs m') = [] ->
    playbackStep m m'
| Scheduled (now : Q) (buffer : AudioBuffer) :
    let s := mkNode (fresh (world m)) buffer
               (Qmax (nextStartTimeRef (refs m)) now) in
    nextStartTimeRef (refs m') = (node_when s + duration buffer)%Q ->
    sourcesRef (refs m') = (sourcesRef (refs m) ++ [s])%list ->
    fresh (world m') = S (fresh (world m)) ->
    playbackStep m m'.

(** How the handler of an event ends: the one exception that escapes
    is the rejection of [getUserMedia]. *)
Definition completionOf (e : Event) (m : Machine) : Completion unit :=
  match e with
  | Click (Denied reason) =>
      if isLiveActive (react m) then Normal tt else Throw reason
  | _ => Normal tt
  end.

(** How a handler may end, whatever the machine: normally, or, for a
    click whose [getUserMedia] rejects, with that rejection. *)
Definition endsAs (e : Event) (c : Completion unit) : Prop :=
  match e with
  | Click (Denied reason) => c = Normal tt \/ c = Throw reason
  | _ => c = Normal tt
  end.

(** The machine after an event. *)
Definition after (e : Event) (m : Machine) : Machine :=
  match e with
  | Click media =>
      if isLiveActive (react m) then stopped m
      else
        match media with
        | Granted stream => started (react m) stream m
        | Denied _ => refused m
        end
  | SessionOpened sid =>
      log (CaptureWired sid)
        (setStatus VOICE_ACTIVE (setIsLiveActive true m))
  | Inbound sid now msg =>
      match callbacksOf (trace (world m)) sid with
      | Some r => handled r sid now msg m
      | None => m
      end
  | SessionErrored _ => stopped (log (ConsoleError "Session Error:") m)
  | SessionClosed _ => stopped m
  | GenerateSettled r ts resp => settled "生成失败:" r ts resp m
  | EditSettled r ts resp => settled "编辑失败:" r ts resp m
  | FileRead r file ts =>
      match file with
      | Some result =>
          setImageState (fun _ =>
            ImageState.mk (Some result) (nth_error (split "," result) 1)
              (Some ts)
              (firstn 10 (uploaded result ts
                            :: ImageState.history (imageState r)))) m
      | None => m
      end
  | Picked item =>
      setImageState (fun prev =>
        ImageState.mk (Some (HistoryItem.url item))
          (HistoryItem.base64 item) (Some (HistoryItem.timestamp item))
          (ImageState.history prev)) m
  end.

(** ** Stepping lemmas *)

(** Normalises a machine built by a chain of setters, innermost first. *)
Ltac machine_norm :=
  cbv [logs log bump setAiResponseText setStatus setIsLiveActive
       setImageState set_nextStartTimeRef set_sourcesRef
       set_audioContextRef set_streamRef set_sessionRef
       with_react with_refs with_world
       react refs world fresh trace status imageState isLiveActive
       aiResponseText audioContextRef nextStartTimeRef sourcesRef
       sessionRef streamRef initialRefs ret modify get emit].

Lemma bind_normal {A B : Type} (c : Js A) (k : A -> Js B) m a m' :
  c m = (Normal a, m') -> bind c k m = k a m'.
Proof. intros H. unfold bind. now rewrite H. Qed.

Lemma logs_nil m : logs [] m = m.
Proof.
  destruct m as [rc rf [f t]]. unfold logs, with_world. cbn.
  now rewrite app_nil_r.
Qed.

Lemma logs_logs es es' m : logs es' (logs es m) = logs (es ++ es')%list m.
Proof.
  destruct m as [rc rf [f t]]. unfold logs, with_world. cbn.
  now rewrite app_assoc.
Qed.

Lemma log_logs e m : log e m = logs [e] m.
Proof. reflexivity. Qed.

Lemma added_logs es m : added m (logs es m) = es.
Proof.
  destruct m as [rc rf [f t]]. unfold added, logs, with_world. cbn.
  rewrite skipn_app, skipn_all, Nat.sub_diag. reflexivity.
Qed.

Lemma stop_each_source l m :
  forEach (fun s => try_catch (source_stop s) (fun _ => ret tt)) l m
  = (Normal tt, logs (map (fun s => SourceStop (node_id s)) l) m).
Proof.
  revert m. induction l as [|s l IH]; intros m.
  - cbn. unfold ret. now rewrite logs_nil.
  - cbn [forEach map]. unfold bind at 1.
    assert (Hs : try_catch (source_stop s) (fun _ => ret tt) m
                 = (Normal tt, logs [SourceStop (node_id s)] m)).
    { unfold try_catch, source_stop, bind, emit, modify, throw, ret.
      rewrite log_logs. now destruct (stop_raises s). }
    rewrite Hs, IH, logs_logs. reflexivity.
Qed.

Lemma stopSources_runs m :
  stopSources m
  = (Normal tt,
     logs (map (fun s => SourceStop (node_id s)) (sourcesRef (refs m))) m).
Proof.
  unfold stopSources, bind at 1, get. apply stop_each_source.
Qed.

Lemma stop_each_track l m :
  forEach track_stop l m = (Normal tt, logs (map TrackStop l) m).
Proof.
  revert m. induction l as [|t l IH]; intros m.
  - cbn. unfold ret. now rewrite logs_nil.
  - cbn [forEach map]. unfold bind at 1, track_stop, emit, modify.
    rewrite IH, log_logs, logs_logs. reflexivity.
Qed.

Lemma closeContext_runs c m :
  closeContext c m = (Normal tt, logs (closing c) m).
Proof.
  unfold closeContext, closing.
  destruct (ctx_state c); cbn; unfold ret; try now rewrite logs_nil.
  all: reflexivity.
Qed.

Lemma session_close_caught sid m :
  try_catch (session_close sid) (fun _ => ret tt) m
  = (Normal tt, logs [SessionClose sid] m).
Proof.
  unfold try_catch, session_close, bind, emit, modify, throw, ret.
  rewrite log_logs. now destruct (close_raises sid).
Qed.

Lemma stopVoiceSession_runs m : stopVoiceSession m = (Normal tt, stopped m).
Proof.
  destruct m as [[st img live txt] [ac cur srcs sess strm] [f t]].
  unfold stopVoiceSession, stopped, stopEffects.
  destruct sess as [sid|], strm as [[tracks]|], ac as [[i o]|]; cbn;
    unfold bind; cbn;
    repeat (first [ rewrite stop_each_track | rewrite closeContext_runs
                  | rewrite stop_each_source | rewrite session_close_caught ];
            cbn).
  all: machine_norm.
  all: repeat rewrite <- app_assoc; cbn [app]; rewrite ?app_nil_r.
  all: reflexivity.
Qed.

Lemma schedule_runs now payload m :
  schedule now payload m =
  (Normal tt,
   let s := mkNode (fresh (world m)) (decodeAudioData payload)
              (Qmax (nextStartTimeRef (refs m)) now) in
   set_sourcesRef (sourcesRef (refs m) ++ [s])%list
     (set_nextStartTimeRef (node_when s + duration (node_buffer s))%Q
        (log (SourceStart (node_id s) (node_when s)) (bump m)))).
Proof. destruct m as [rc [ac cur srcs sess strm] [f t]]. reflexivity. Qed.

Lemma audio_runs now msg m :
  match audioBase64 msg, audioContextRef (refs m) with
  | Some payload, Some _ =>
      if payload =? "" then ret tt else schedule now payload
  | _, _ => ret tt
  end m = (Normal tt, afterAudio now msg m).
Proof.
  unfold afterAudio, played.
  destruct (audioBase64 msg) as [payload|]; [|reflexivity].
  destruct (audioContextRef (refs m)); [|reflexivity].
  destruct (payload =? ""); [reflexivity|].
  apply schedule_runs.
Qed.

Lemma transcription_runs msg m :
  match serverContent msg with
  | Some sc =>
      match outputTranscription sc with
      | Some t => modify (setAiResponseText (transcription_text t))
      | None => ret tt
      end
  | None => ret tt
  end m = (Normal tt, afterTranscription msg m).
Proof.
  unfold afterTranscription.
  destruct (serverContent msg) as [sc|]; [|reflexivity].
  destruct (outputTranscription sc); reflexivity.
Qed.

Lemma dispatch_runs r fc m :
  dispatch r fc m =
  (Normal tt,
   logs (requestOf r fc) (setStatus (statusAfter r (status (react m)) fc) m)).
Proof.
  destruct m as [[st img live txt] rf [f t]].
  unfold dispatch, requestOf, statusAfter, editImage_request,
    generateImage_request.
  destruct (name fc =? "generateImage"); [reflexivity|].
  destruct ((name fc =? "editImage") || (name fc =? "posterLayout")).
  - destruct (truthy (ImageState.base64 (imageState r))); cbn.
    + reflexivity.
    + unfold logs, setStatus, with_world, with_react, ret. cbn.
      now rewrite app_nil_r.
  - unfold logs, setStatus, with_world, with_react, ret. cbn.
    now rewrite app_nil_r.
Qed.

Lemma dispatch_each r fcs m :
  forEach (dispatch r) fcs m = (Normal tt, afterDispatch r fcs m).
Proof.
  revert m. induction fcs as [|fc fcs IH]; intros m.
  - destruct m as [[st img live txt] rf [f t]].
    unfold afterDispatch, logs, setStatus, with_world, with_react. cbn.
    unfold ret. now rewrite app_nil_r.
  - cbn [forEach]. rewrite (bind_normal _ _ _ _ _ (dispatch_runs r fc m)).
    rewrite IH. destruct m as [[st img live txt] rf [f t]].
    unfold afterDispatch, logs, setStatus, with_world, with_react. cbn.
    now rewrite app_assoc.
Qed.

Lemma interrupt_runs msg m :
  (if isInterrupted msg then
     stopSources ;;
     modify (set_sourcesRef []) ;;
     modify (set_nextStartTimeRef 0%Q)
   else ret tt) m = (Normal tt, afterInterrupt msg m).
Proof.
  unfold afterInterrupt. destruct (isInterrupted msg); [|reflexivity].
  now rewrite (bind_normal _ _ _ _ _ (stopSources_runs m)).
Qed.

Lemma respond_each sid fcs m :
  forEach (respond sid) fcs m = (Normal tt, afterRespond sid fcs m).
Proof.
  unfold afterRespond. revert m. induction fcs as [|fc fcs IH]; intros m.
  - cbn. unfold ret. destruct (sessionRef (refs m)); now rewrite logs_nil.
  - cbn [forEach map]. unfold bind at 1, respond at 1, bind at 1, get.
    destruct m as [rc [ac cur srcs [s|] strm] [f t]]; cbn.
    + rewrite IH. cbn. unfold logs, with_world. cbn.
      now rewrite <- app_assoc.
    + rewrite IH. cbn. unfold logs, with_world. cbn.
      reflexivity.
Qed.

Lemma onmessage_runs r sid now msg m :
  onmessage r sid now msg m = (Normal tt, handled r sid now msg m).
Proof.
  unfold onmessage, handled. unfold bind at 1, get.
  rewrite (bind_normal _ _ _ _ _ (audio_runs now msg m)).
  rewrite (bind_normal _ _ _ _ _ (transcription_runs msg _)).
  rewrite (bind_normal _ _ _ _ _ (dispatch_each r _ _)).
  rewrite (bind_normal _ _ _ _ _ (interrupt_runs msg _)).
  apply respond_each.
Qed.

Lemma scanParts_runs ts ps m :
  scanParts ts ps m =
  (Normal tt,
   match firstInline ps with Some d => adopted d ts m | None => m end).
Proof.
  induction ps as [|part ps IH]; cbn [scanParts firstInline];
    [reflexivity|].
  destruct (inlineData part); [reflexivity|apply IH].
Qed.

Lemma settle_runs label r ts resp m :
  try_finally
    (try_catch (readResponse ts resp)
       (fun _ => emit (ConsoleError label)))
    (restoreStatus r) m
  = (Normal tt, settled label r ts resp m).
Proof.
  unfold try_finally, try_catch, settled, restoreStatus.
  destruct resp as [reason|[|candidate others]];
    cbn [readResponse firstImage threw]; try reflexivity.
  rewrite scanParts_runs.
  destruct (firstInline (parts candidate)); reflexivity.
Qed.

Lemma generateImage_settle_runs r ts resp m :
  generateImage_settle r ts resp m
  = (Normal tt, settled "生成失败:" r ts resp m).
Proof. apply settle_runs. Qed.

Lemma editImage_settle_runs r ts resp m :
  editImage_settle r ts resp m
  = (Normal tt, settled "编辑失败:" r ts resp m).
Proof. apply settle_runs. Qed.

Lemma handled_refs r sid now msg m :
  refs (handled r sid now msg m) =
  mkRefs (audioContextRef (refs m))
    (if isInterrupted msg then 0%Q
     else match played now msg m with
          | Some s => (node_when s + duration (node_buffer s))%Q
          | None => nextStartTimeRef (refs m)
          end)
    (if isInterrupted msg then []
     else (sourcesRef (refs m) ++ scheduledBy now msg m)%list)
    (sessionRef (refs m)) (streamRef (refs m)).
Proof.
  destruct m as [rc [ac cur srcs sess strm] [f t]].
  unfold handled, afterRespond, afterInterrupt, afterDispatch,
    afterTranscription, afterAudio, scheduledBy.
  destruct (played now msg _) as [s|], (isInterrupted msg),
    (serverContent msg) as [[turn [tr|] i]|];
    machine_norm; rewrite ?app_nil_r; reflexivity.
Qed.

Lemma handled_react r sid now msg m :
  react (handled r sid now msg m) =
  mkRender (fold_left (statusAfter r) (functionCalls msg) (status (react m)))
    (imageState (react m)) (isLiveActive (react m))
    (aiResponseText (react (afterTranscription msg m))).
Proof.
  destruct m as [[st img live txt] [ac cur srcs sess strm] [f t]].
  unfold handled, afterRespond, afterInterrupt, afterDispatch,
    afterTranscription, afterAudio.
  destruct (played now msg _) as [s|], (isInterrupted msg),
    (serverContent msg) as [[turn [tr|] i]|];
    machine_norm; reflexivity.
Qed.

Lemma skipn_exact {A : Type} (l l' : list A) :
  skipn (List.length l) (l ++ l') = l'.
Proof. induction l; [reflexivity|assumption]. Qed.

Lemma handled_added r sid now msg m :
  added m (handled r sid now msg m) =
  (map (fun s => SourceStart (node_id s) (node_when s))
     (scheduledBy now msg m)
   ++ flat_map (requestOf r) (functionCalls msg)
   ++ (if isInterrupted msg
       then map (fun s => SourceStop (node_id s))
              (sourcesRef (refs m) ++ scheduledBy now msg m)
       else [])
   ++ match sessionRef (refs m) with
      | Some _ => map (acknowledgement sid) (functionCalls msg)
      | None => []
      end)%list.
Proof.
  destruct m as [[st img live txt] [ac cur srcs sess strm] [f t]].
  unfold added, handled, afterRespond, afterInterrupt, afterDispatch,
    afterTranscription, afterAudio, scheduledBy.
  destruct (played now msg _) as [s|], (isInterrupted msg),
    (serverContent msg) as [[turn [tr|] i]|];
    cbn [outputTranscription]; machine_norm; cbn [map app];
    rewrite ?app_nil_r; repeat rewrite <- app_assoc; cbn [app];
    rewrite ?app_nil_r.
  all: apply skipn_exact.
Qed.

Lemma flat_map_map_nil {A B C : Type} (f : B -> list C) (g : A -> B) l :
  (forall x, f (g x) = []) -> flat_map f (map g l) = [].
Proof.
  intros H. induction l as [|x l IH]; cbn; [reflexivity|].
  now rewrite H, IH.
Qed.

Lemma flat_map_map_one {A B C : Type} (f : B -> list C) (g : A -> B)
  (h : A -> C) l :
  (forall x, f (g x) = [h x]) -> flat_map f (map g l) = map h l.
Proof.
  intros H. induction l as [|x l IH]; cbn; [reflexivity|].
  now rewrite H, IH.
Qed.

Lemma flat_map_flat_map_nil {A B C : Type} (f : B -> list C)
  (g : A -> list B) l :
  (forall x, flat_map f (g x) = []) -> flat_map f (flat_map g l) = [].
Proof.
  intros H. induction l as [|x l IH]; cbn; [reflexivity|].
  now rewrite flat_map_app, H, IH.
Qed.

Lemma requestOf_only_requests r fc :
  flat_map sourceStop (requestOf r fc) = [] /\
  flat_map toolResponse (requestOf r fc) = [] /\
  flat_map connect (requestOf r fc) = [].
Proof.
  unfold requestOf.
  destruct (name fc =? "generateImage"); [now cbn|].
  destruct ((name fc =? "editImage") || (name fc =? "posterLayout"));
    [|now cbn].
  destruct (truthy (ImageState.base64 (imageState r))); now cbn.
Qed.

(** ** Stopping *)

(** C2.  [stopVoiceSession] never throws.  On a session that was never
    started it changes nothing; from any state it leaves the session
    reference, the microphone stream, the audio contexts, the set of
    sources, the cursor, the active flag, the status and the AI text as
    they are in the freshly mounted component; a second call right after
    changes nothing more, so stopping twice is stopping once. *)
Theorem stopVoiceSession_idempotent :
  (forall img w,
     let idle := mkMachine (mkRender IDLE img false "") initialRefs w in
     stopVoiceSession idle = (Normal tt, idle)) /\
  (forall m, exists m1,
     stopVoiceSession m = (Normal tt, m1) /\
     voiceState m1 = voiceState initialMachine /\
     stopVoiceSession m1 = (Normal tt, m1) /\
     (stopVoiceSession ;; stopVoiceSession) m = stopVoiceSession m).
Proof.
  assert (Hidle : forall img w,
    stopVoiceSession (mkMachine (mkRender IDLE img false "") initialRefs w)
    = (Normal tt, mkMachine (mkRender IDLE img false "") initialRefs w)).
  { intros img [f t]. rewrite stopVoiceSession_runs.
    unfold stopped, stopEffects, initialRefs.
    cbn [react refs world fresh trace imageState streamRef audioContextRef
         sourcesRef sessionRef map app].
    now rewrite app_nil_r. }
  split; [exact Hidle|].
  intros m. exists (stopped m).
  assert (Hagain : stopVoiceSession (stopped m) = (Normal tt, stopped m))
    by apply Hidle.
  split; [apply stopVoiceSession_runs|].
  split; [reflexivity|].
  split; [exact Hagain|].
  rewrite (bind_normal _ _ _ _ _ (stopVoiceSession_runs m)).
  now rewrite Hagain, stopVoiceSession_runs.
Qed.

(** ** Interruption *)


(** ** Tool calls *)

Lemma added_same_trace m m' :
  trace (world m') = trace (world m) -> added m m' = [].
Proof.
  unfold added. intros ->. apply skipn_all.
Qed.

Lemma added_settled label r ts resp m :
  added m (settled label r ts resp m) =
  match firstImage resp with
  | Some _ => []
  | None => if threw resp then [ConsoleError label] else []
  end.
Proof.
  destruct m as [[st img live txt] rf [f t]]. unfold settled, adopted.
  destruct (firstImage resp) as [d|]; [|destruct (threw resp)].
  - apply added_same_trace. reflexivity.
  - unfold added. machine_norm. apply skipn_exact.
  - apply added_same_trace. reflexivity.
Qed.


Lemma unknown_does_nothing r fc :
  knownTool fc = false ->
  (forall st, statusAfter r st fc = st) /\ requestOf r fc = [].
Proof.
  unfold knownTool, statusAfter, requestOf.
  destruct (name fc =? "generateImage"); [discriminate|].
  cbn [orb]. now intros ->.
Qed.

Lemma statusAfter_known r fcs st :
  fold_left (statusAfter r) (filter knownTool fcs) st
  = fold_left (statusAfter r) fcs st.
Proof.
  revert st. induction fcs as [|fc fcs IH]; intros st; [reflexivity|].
  cbn [filter fold_left]. destruct (knownTool fc) eqn:K.
  - cbn [fold_left]. apply IH.
  - rewrite (proj1 (unknown_does_nothing r fc K)). apply IH.
Qed.

Lemma requestOf_known r fcs :
  flat_map (requestOf r) (filter knownTool fcs)
  = flat_map (requestOf r) fcs.
Proof.
  induction fcs as [|fc fcs IH]; [reflexivity|].
  cbn [filter flat_map]. destruct (knownTool fc) eqn:K.
  - cbn [flat_map]. now rewrite IH.
  - now rewrite (proj2 (unknown_does_nothing r fc K)).
Qed.

Lemma functionCalls_withoutUnknown msg :
  functionCalls (withoutUnknown msg) = filter knownTool (functionCalls msg).
Proof.
  unfold functionCalls, withoutUnknown. cbn [toolCall].
  now destruct (toolCall msg).
Qed.

Lemma handled_requests r sid now msg m :
  flat_map request (added m (handled r sid now msg m))
  = flat_map request (flat_map (requestOf r) (functionCalls msg)).
Proof.
  rewrite handled_added, !flat_map_app.
  rewrite (flat_map_map_nil request) by reflexivity.
  assert (Hstops : flat_map request
            (if isInterrupted msg
             then map (fun s => SourceStop (node_id s))
                    (sourcesRef (refs m) ++ scheduledBy now msg m)
             else []) = []).
  { destruct (isInterrupted msg); [|reflexivity].
    now apply flat_map_map_nil. }
  assert (Hacks : flat_map request
            match sessionRef (refs m) with
            | Some _ => map (acknowledgement sid) (functionCalls msg)
            | None => []
            end = []).
  { destruct (sessionRef (refs m)); [|reflexivity].
    now apply flat_map_map_nil. }
  now rewrite Hstops, Hacks, !app_nil_r.
Qed.

Lemma unknown_filtered fcs :
  Forall (fun fc => name fc <> "generateImage" /\
                    name fc <> "editImage" /\
                    name fc <> "posterLayout") fcs ->
  filter knownTool fcs = [].
Proof.
  induction 1 as [|fc fcs [Hg [He Hp]] _ IH]; [reflexivity|].
  cbn [filter]. unfold knownTool.
  apply String.eqb_neq in Hg, He, Hp. now rewrite Hg, He, Hp.
Qed.

(** C10.  The handler of a message, run while the session reference is
    set, ends normally and answers every function call of the message
    — whatever its name — with one tool response carrying the call's
    [id], its [name] and the result ["ok"]; the image state is as
    before.  The calls whose name is none of the three tools do
    nothing else: the requests sent to the endpoint, the render state
    (status included) and the refs are those of the same message with
    these calls left out; and when no call of the message has one of
    the three names, the status is as before and no request is
    sent. *)
Theorem unknown_tool_is_only_acknowledged r sid now msg m :
  sessionRef (refs m) <> None ->
  exists m' m'',
    onmessage r sid now msg m = (Normal tt, m') /\
    onmessage r sid now (withoutUnknown msg) m = (Normal tt, m'') /\
    flat_map toolResponse (added m m')
    = map (fun fc => (sid, id fc, name fc, "ok")) (functionCalls msg) /\
    imageState (react m') = imageState (react m) /\
    flat_map request (added m m') = flat_map request (added m m'') /\
    react m' = react m'' /\
    refs m' = refs m'' /\
    (Forall (fun fc => name fc <> "generateImage" /\
                       name fc <> "editImage" /\
                       name fc <> "posterLayout") (functionCalls msg) ->
     status (react m') = status (react m) /\
     flat_map request (added m m') = []).
Proof.
  intros Hs.
  exists (handled r sid now msg m), (handled r sid now (withoutUnknown msg) m).
  split; [apply onmessage_runs|]. split; [apply onmessage_runs|].
  split; [|split; [|split; [|split; [|split]]]].
  - rewrite handled_added, !flat_map_app.
    rewrite (flat_map_map_nil toolResponse) by reflexivity.
    rewrite (flat_map_flat_map_nil toolResponse)
      by (intros fc; apply requestOf_only_requests).
    assert (Hstops : flat_map toolResponse
              (if isInterrupted msg
               then map (fun s => SourceStop (node_id s))
                      (sourcesRef (refs m) ++ scheduledBy now msg m)
               else []) = []).
    { destruct (isInterrupted msg); [|reflexivity].
      now apply flat_map_map_nil. }
    rewrite Hstops. cbn [app].
    destruct (sessionRef (refs m)); [|contradiction].
    now apply flat_map_map_one.
  - now rewrite handled_react.
  - now rewrite !handled_requests, functionCalls_withoutUnknown,
      requestOf_known.
  - now rewrite !handled_react, functionCalls_withoutUnknown,
      statusAfter_known.
  - now rewrite !handled_refs.
  - intros Hunknown. apply unknown_filtered in Hunknown. split.
    + rewrite handled_react. cbn [status].
      now rewrite <- statusAfter_known, Hunknown.
    + now rewrite handled_requests, <- requestOf_known, Hunknown.
Qed.

Lemma append_empty (s : string) : s ++ "" = s.
Proof. induction s as [|c s IH]; cbn; [reflexivity|now rewrite IH]. Qed.

(** C6 (as amended).  A [generateImage] call runs [generateImage] on
    its [prompt]; an [editImage] or a [posterLayout] call runs
    [editImage] on [editPrompt] of its arguments, which is
    ["<prompt>. Text to add: <textContent>"] when [textContent] is
    present and not the empty string, and the prompt alone when it is
    absent or empty. *)
Theorem dispatch_rule r fc :
  (name fc = "generateImage" ->
   dispatch r fc = generateImage_request (prompt (args fc))) /\
  (name fc = "editImage" \/ name fc = "posterLayout" ->
   dispatch r fc = (editImage_request r (editPrompt (args fc)) ;; ret tt)) /\
  (forall t, textContent (args fc) = Some t -> t <> "" ->
   editPrompt (args fc) = prompt (args fc) ++ ". Text to add: " ++ t) /\
  (textContent (args fc) = None \/ textContent (args fc) = Some "" ->
   editPrompt (args fc) = prompt (args fc)).
Proof.
  split; [|split; [|split]].
  - intros H. unfold dispatch. now rewrite H.
  - intros [H|H]; unfold dispatch; rewrite H; reflexivity.
  - intros t Ht Hne. unfold editPrompt. rewrite Ht. cbn.
    apply String.eqb_neq in Hne. now rewrite Hne.
  - intros [H|H]; unfold editPrompt; rewrite H; cbn; apply append_empty.
Qed.

(** ** Creative actions *)

Lemma generateImage_runs r prompt ts resp m :
  generateImage r prompt ts resp m =
  (Normal tt,
   settled "生成失败:" r ts resp
     (log (GenerateContent None ("High quality, aesthetic, " ++ prompt))
        (setStatus GENERATING m))).
Proof.
  unfold generateImage, generateImage_request.
  unfold bind at 1. unfold bind at 1. unfold modify at 1.
  unfold emit, modify at 1.
  apply generateImage_settle_runs.
Qed.

Lemma editImage_runs r prompt ts resp m :
  truthy (ImageState.base64 (imageState r)) = true ->
  editImage r prompt ts resp m =
  (Normal tt,
   settled "编辑失败:" r ts resp
     (log (GenerateContent (ImageState.base64 (imageState r))
             ("Modify the image based on this: " ++ prompt))
        (setStatus EDITING m))).
Proof.
  intros H. unfold editImage, editImage_request. rewrite H.
  cbn [negb]. unfold bind at 1. unfold bind at 1. unfold modify at 1.
  unfold bind at 1. unfold emit, modify at 1. unfold ret at 1.
  apply editImage_settle_runs.
Qed.

Lemma failed_settled label r ts resp m :
  firstImage resp = None ->
  imageState (react (settled label r ts resp m)) = imageState (react m) /\
  status (react (settled label r ts resp m))
  = (if isLiveActive r then VOICE_ACTIVE else IDLE).
Proof.
  intros H. destruct m as [[st img live txt] rf [f t]].
  unfold settled. rewrite H. now destruct (threw resp).
Qed.

Lemma added_after_request label r ts resp e v m :
  added m (settled label r ts resp (log e (setStatus v m))) =
  e :: match firstImage resp with
       | Some _ => []
       | None => if threw resp then [ConsoleError label] else []
       end.
Proof.
  destruct m as [[st img live txt] rf [f t]]. unfold settled, adopted.
  destruct (firstImage resp) as [d|]; [|destruct (threw resp)];
    unfold added; machine_norm; rewrite <- ?app_assoc; apply skipn_exact.
Qed.

(** C4 (as amended).  A call of [generateImage], or of [editImage] on
    an existing image, whose response carries no inline image (the
    request was rejected, reading the first candidate threw, or no
    part has inline data) ends normally, leaves the image state as it
    was, and leaves the status at [VOICE_ACTIVE] or [IDLE], as the
    [isLiveActive] the function reads says.  The console receives the
    failure exactly when the request threw; a response that merely
    lacks an image is not logged. *)
Theorem failed_action_restores_status :
  (forall r prompt ts resp m,
     firstImage resp = None ->
     exists m',
       generateImage r prompt ts resp m = (Normal tt, m') /\
       imageState (react m') = imageState (react m) /\
       status (react m') = (if isLiveActive r then VOICE_ACTIVE else IDLE) /\
       flat_map consoleError (added m m')
       = (if threw resp then ["生成失败:"] else [])) /\
  (forall r prompt ts resp m,
     truthy (ImageState.base64 (imageState r)) = true ->
     firstImage resp = None ->
     exists m',
       editImage r prompt ts resp m = (Normal tt, m') /\
       imageState (react m') = imageState (react m) /\
       status (react m') = (if isLiveActive r then VOICE_ACTIVE else IDLE) /\
       flat_map consoleError (added m m')
       = (if threw resp then ["编辑失败:"] else [])).
Proof.
  split.
  - intros r prompt ts resp m Hfail. eexists.
    split; [apply generateImage_runs|].
    destruct (failed_settled "生成失败:" r ts resp
                (log (GenerateContent None
                        ("High quality, aesthetic, " ++ prompt))
                   (setStatus GENERATING m)) Hfail) as [Himg Hst].
    split; [|split].
    + rewrite Himg. now destruct m as [[st img live txt] rf [f t]].
    + exact Hst.
    + rewrite added_after_request, Hfail. now destruct (threw resp).
  - intros r prompt ts resp m Hbase Hfail. eexists.
    split; [now apply editImage_runs|].
    destruct (failed_settled "编辑失败:" r ts resp
                (log (GenerateContent (ImageState.base64 (imageState r))
                        ("Modify the image based on this: " ++ prompt))
                   (setStatus EDITING m)) Hfail) as [Himg Hst].
    split; [|split].
    + rewrite Himg. now destruct m as [[st img live txt] rf [f t]].
    + exact Hst.
    + rewrite added_after_request, Hfail. now destruct (threw resp).
Qed.

(** C9.  [editImage], run by a render that holds no raw image
    ([base64] is [null], [undefined] or empty), returns at its guard:
    the machine is left exactly as it was — status, history, current
    image — and nothing is sent to the endpoint.  With [r] the current
    render this is the case of no current artifact. *)
Theorem edit_without_artifact_is_noop r prompt ts resp m :
  truthy (ImageState.base64 (imageState r)) = false ->
  editImage_request r prompt m = (Normal false, m) /\
  editImage r prompt ts resp m = (Normal tt, m).
Proof.
  intros H. unfold editImage, editImage_request. rewrite H. now cbn.
Qed.

Lemma recorded_push (item : HistoryItem.t) before :
  recorded item before (firstn 10 (item :: before)).
Proof.
  unfold recorded. split; [reflexivity|]. split; [apply firstn_le_length|].
  split; [reflexivity|]. split.
  - intros Hlt. apply firstn_all2. cbn. lia.
  - intros Hlen.
    assert (H9 : firstn 9 before = removelast before).
    { destruct (exists_last (l := before)) as [front [oldest ->]].
      - intros ->. discriminate.
      - rewrite removelast_last. rewrite length_app in Hlen. cbn in Hlen.
        rewrite firstn_app.
        replace (9 - List.length front) with 0 by lia.
        rewrite firstn_O, app_nil_r. apply firstn_all2. lia. }
    change (firstn 10 (item :: before)) with (item :: firstn 9 before).
    rewrite H9. split; [reflexivity|].
    cbn. rewrite <- H9, length_firstn. lia.
Qed.

(** X22.  A successful [generateImage], a successful [editImage], and
    a manual upload whose handler belongs to a render holding the
    image state of the moment, each leave a history of at most ten
    entries with the new artifact at index 0: the previous history
    follows it in its order, and when that already held ten entries
    its last (oldest) one is dropped and ten remain. *)
Theorem history_keeps_ten_newest_first :
  (forall r prompt ts resp m d,
     firstImage resp = Some d ->
     exists m',
       generateImage r prompt ts resp m = (Normal tt, m') /\
       recorded (artifact d ts)
         (ImageState.history (imageState (react m)))
         (ImageState.history (imageState (react m')))) /\
  (forall r prompt ts resp m d,
     truthy (ImageState.base64 (imageState r)) = true ->
     firstImage resp = Some d ->
     exists m',
       editImage r prompt ts resp m = (Normal tt, m') /\
       recorded (artifact d ts)
         (ImageState.history (imageState (react m)))
         (ImageState.history (imageState (react m')))) /\
  (forall r result ts m,
     imageState r = imageState (react m) ->
     exists m',
       handleImageUpload r (Some result) ts m = (Normal tt, m') /\
       recorded (uploaded result ts)
         (ImageState.history (imageState (react m)))
         (ImageState.history (imageState (react m')))).
Proof.
  split; [|split].
  - intros r prompt ts resp m d Hd. eexists.
    split; [apply generateImage_runs|].
    destruct m as [[st img live txt] rf [f t]].
    unfold settled, adopted. rewrite Hd. machine_norm.
    apply recorded_push.
  - intros r prompt ts resp m d Hbase Hd. eexists.
    split; [now apply editImage_runs|].
    destruct m as [[st img live txt] rf [f t]].
    unfold settled, adopted. rewrite Hd. machine_norm.
    apply recorded_push.
  - intros r result ts m Hr. eexists. split; [reflexivity|].
    rewrite <- Hr. destruct m as [[st img live txt] rf [f t]]. machine_norm.
    apply recorded_push.
Qed.

(** ** Starting *)

Lemma added_stopped m : added m (stopped m) = stopEffects (refs m).
Proof. unfold added, stopped. cbn [world trace]. apply skipn_exact. Qed.

Lemma stopEffects_no_connect x : flat_map connect (stopEffects x) = [].
Proof.
  unfold stopEffects, closing. rewrite !flat_map_app.
  destruct (streamRef x), (audioContextRef x) as [[i o]|], (sessionRef x);
    cbn [input output];
    try destruct (ctx_state i); try destruct (ctx_state o);
    rewrite ?(flat_map_map_nil connect) by reflexivity; reflexivity.
Qed.

Lemma sessions_only_close es :
  flat_map connect es = [] ->
  forall live,
    (List.length (fold_left sessionStep es live) <= List.length live)%nat.
Proof.
  induction es as [|e es IH]; intros Hnone live; [cbn; lia|].
  cbn [flat_map] in Hnone. apply app_eq_nil in Hnone as [He Hes].
  cbn [fold_left]. etransitivity; [apply IH, Hes|].
  destruct e; cbn [sessionStep connect] in *; try lia; [discriminate|].
  apply filter_length_le.
Qed.

(** C8 (as amended).  [startVoiceSession], run by a render whose
    [isLiveActive] is set, is [stopVoiceSession]: it connects no
    session, closes the session the reference held, leaves the
    reference empty, and the number of open sessions does not grow. *)
Theorem start_while_active_stops r media m :
  isLiveActive r = true ->
  startVoiceSession r media m = stopVoiceSession m /\
  exists m',
    startVoiceSession r media m = (Normal tt, m') /\
    sessionRef (refs m') = None /\
    flat_map connect (added m m') = [] /\
    (forall sid, sessionRef (refs m) = Some sid ->
                 In (SessionClose sid) (added m m')) /\
    (List.length (openSessions (trace (world m')))
     <= List.length (openSessions (trace (world m))))%nat.
Proof.
  intros Hlive. unfold startVoiceSession. rewrite Hlive.
  split; [reflexivity|]. exists (stopped m).
  split; [apply stopVoiceSession_runs|]. split; [reflexivity|].
  rewrite added_stopped. split; [apply stopEffects_no_connect|]. split.
  - intros sid Hsid. unfold stopEffects. rewrite Hsid.
    rewrite !in_app_iff. right. right. right. now left.
  - unfold openSessions, stopped. cbn [world trace].
    rewrite fold_left_app.
    apply sessions_only_close, stopEffects_no_connect.
Qed.

(** ** Playback *)

Lemma duration_nonneg b : (0 <= duration b)%Q.
Proof. unfold duration, Qle. cbn. lia. Qed.

Lemma onmessages_cons r sid now msg rest m :
  onmessages r sid ((now, msg) :: rest) m
  = onmessages r sid rest (handled r sid now msg m).
Proof.
  cbn [onmessages].
  now rewrite (bind_normal _ _ _ _ _ (onmessage_runs r sid now msg m)).
Qed.

Lemma played_audio now msg m :
  audioContextRef (refs m) <> None ->
  truthy (audioBase64 msg) = true ->
  exists payload,
    audioBase64 msg = Some payload /\
    played now msg m
    = Some (mkNode (fresh (world m)) (decodeAudioData payload)
              (Qmax (nextStartTimeRef (refs m)) now)).
Proof.
  intros Hctx Haudio. unfold played.
  destruct (audioBase64 msg) as [payload|]; [|discriminate].
  exists payload. split; [reflexivity|].
  destruct (audioContextRef (refs m)); [|contradiction].
  cbn in Haudio. now destruct (payload =? "").
Qed.


(** ** The session from start to end *)

Lemma startVoiceSession_runs r stream m :
  isLiveActive r = false ->
  startVoiceSession r (Granted stream) m = (Normal tt, started r stream m).
Proof.
  intros H. unfold startVoiceSession. rewrite H.
  destruct m as [[st img live txt] [ac cur srcs sess strm] [f t]].
  unfold started, bind, newAudioContext, allocate, bind.
  machine_norm. rewrite <- !app_assoc. reflexivity.
Qed.

Lemma startVoiceSession_refused r reason m :
  isLiveActive r = false ->
  startVoiceSession r (Denied reason) m = (Throw reason, refused m).
Proof.
  intros H. unfold startVoiceSession. rewrite H.
  destruct m as [[st img live txt] [ac cur srcs sess strm] [f t]].
  unfold refused, bind, newAudioContext, allocate, bind, throw.
  machine_norm. rewrite <- !app_assoc. reflexivity.
Qed.

Lemma onopen_runs sid m :
  onopen sid m =
  (Normal tt,
   log (CaptureWired sid) (setStatus VOICE_ACTIVE (setIsLiveActive true m))).
Proof. reflexivity. Qed.

Lemma openSessions_app t es :
  openSessions (t ++ es) = fold_left sessionStep es (openSessions t).
Proof. apply fold_left_app. Qed.

Lemma sessions_untouched es :
  flat_map connect es = [] -> flat_map sessionClose es = [] ->
  forall live, fold_left sessionStep es live = live.
Proof.
  induction es as [|e es IH]; intros Hc Hs live; [reflexivity|].
  cbn [flat_map] in Hc, Hs.
  apply app_eq_nil in Hc as [Hc1 Hc2]. apply app_eq_nil in Hs as [Hs1 Hs2].
  cbn [fold_left]. rewrite <- (IH Hc2 Hs2 live) at 2.
  destruct e; cbn in Hc1, Hs1; try discriminate; reflexivity.
Qed.

Lemma stopEffects_closes x :
  flat_map sessionClose (stopEffects x) =
  match sessionRef x with
  | Some held => [held]
  | None => []
  end.
Proof.
  unfold stopEffects, closing. rewrite !flat_map_app.
  destruct (streamRef x), (audioContextRef x) as [[i o]|], (sessionRef x);
    cbn [input output];
    try destruct (ctx_state i); try destruct (ctx_state o);
    rewrite ?(flat_map_map_nil sessionClose) by reflexivity; reflexivity.
Qed.

(** X1.  With the active flag of its render clear,
    [startVoiceSession] sets the status to [VOICE_CONNECTING] and
    creates an input context at 16 kHz and an output context at
    24 kHz.  When [getUserMedia] yields a stream it ends normally: it
    holds the stream and connects one new session, which becomes the
    referenced one and joins the open sessions.  When [getUserMedia]
    rejects it ends with that exception: the status stays
    [VOICE_CONNECTING], the two contexts stay held and open, and no
    stream is held and no session connected.  Either way it stops,
    closes and clears nothing, and the sources, the cursor, the active
    flag and the image state stay as they were. *)
Theorem start_connects_or_rejects r m :
  isLiveActive r = false ->
  (forall stream, exists m',
     startVoiceSession r (Granted stream) m = (Normal tt, m') /\
     status (react m') = VOICE_CONNECTING /\
     isLiveActive (react m') = isLiveActive (react m) /\
     imageState (react m') = imageState (react m) /\
     sourcesRef (refs m') = sourcesRef (refs m) /\
     nextStartTimeRef (refs m') = nextStartTimeRef (refs m) /\
     streamRef (refs m') = Some stream /\
     audioContextRef (refs m')
     = Some (mkAudioContexts
               (mkAudioContext (fresh (world m)) 16000 running)
               (mkAudioContext (S (fresh (world m))) 24000 running)) /\
     sessionRef (refs m') = Some (S (S (fresh (world m)))) /\
     added m m'
     = [NewAudioContext (fresh (world m)) 16000;
        NewAudioContext (S (fresh (world m))) 24000;
        LiveConnect (S (S (fresh (world m)))) r] /\
     openSessions (trace (world m'))
     = (openSessions (trace (world m)) ++ [S (S (fresh (world m)))])%list) /\
  (forall reason, exists m',
     startVoiceSession r (Denied reason) m = (Throw reason, m') /\
     status (react m') = VOICE_CONNECTING /\
     isLiveActive (react m') = isLiveActive (react m) /\
     imageState (react m') = imageState (react m) /\
     sourcesRef (refs m') = sourcesRef (refs m) /\
     nextStartTimeRef (refs m') = nextStartTimeRef (refs m) /\
     streamRef (refs m') = streamRef (refs m) /\
     audioContextRef (refs m')
     = Some (mkAudioContexts
               (mkAudioContext (fresh (world m)) 16000 running)
               (mkAudioContext (S (fresh (world m))) 24000 running)) /\
     sessionRef (refs m') = sessionRef (refs m) /\
     added m m'
     = [NewAudioContext (fresh (world m)) 16000;
        NewAudioContext (S (fresh (world m))) 24000] /\
     openSessions (trace (world m')) = openSessions (trace (world m))).
Proof.
  intros H. split.
  - intros stream. exists (started r stream m).
    split; [now apply startVoiceSession_runs|].
    unfold started. cbn [react refs world status isLiveActive imageState
      sourcesRef nextStartTimeRef streamRef audioContextRef sessionRef
      trace].
    repeat (split; [reflexivity|]). split.
    + unfold added. cbn [world trace]. apply skipn_exact.
    + now rewrite openSessions_app.
  - intros reason. exists (refused m).
    split; [now apply startVoiceSession_refused|].
    unfold refused. cbn [react refs world status isLiveActive imageState
      sourcesRef nextStartTimeRef streamRef audioContextRef sessionRef
      trace].
    repeat (split; [reflexivity|]). split.
    + unfold added. cbn [world trace]. apply skipn_exact.
    + now rewrite openSessions_app.
Qed.

(** X2.  A session that a second [startVoiceSession] replaced in the
    reference stays open through the next [stopVoiceSession]: the stop
    closes the session the reference holds, which is the new one. *)
Theorem replaced_session_survives_stop r stream old m :
  isLiveActive r = false ->
  (old < fresh (world m))%nat ->
  In old (openSessions (trace (world m))) ->
  exists m1 m2,
    startVoiceSession r (Granted stream) m = (Normal tt, m1) /\
    stopVoiceSession m1 = (Normal tt, m2) /\
    sessionRef (refs m1) <> Some old /\
    flat_map sessionClose (added m m2) = [S (S (fresh (world m)))] /\
    sessionRef (refs m2) = None /\
    In old (openSessions (trace (world m2))).
Proof.
  intros H Hold Hopen.
  exists (started r stream m), (stopped (started r stream m)).
  split; [now apply startVoiceSession_runs|].
  split; [apply stopVoiceSession_runs|].
  split; [cbn; intros [= E]; lia|].
  assert (Htrace : trace (world (stopped (started r stream m)))
    = (trace (world m)
       ++ [NewAudioContext (fresh (world m)) 16000;
           NewAudioContext (S (fresh (world m))) 24000;
           LiveConnect (S (S (fresh (world m)))) r]
       ++ stopEffects (refs (started r stream m)))%list).
  { unfold stopped. cbn [world trace]. unfold started at 1.
    cbn [world trace]. now rewrite <- app_assoc. }
  split; [|split; [reflexivity|]].
  - unfold added. rewrite Htrace, skipn_exact.
    rewrite flat_map_app, stopEffects_closes. reflexivity.
  - rewrite Htrace, openSessions_app, fold_left_app.
    cbn [fold_left sessionStep].
    unfold stopEffects. rewrite !fold_left_app.
    cbn [refs started streamRef audioContextRef sourcesRef sessionRef
         input output closing ctx_state ctx_id app fold_left].
    rewrite (sessions_untouched (map TrackStop (getTracks stream)))
      by (now apply flat_map_map_nil).
    cbn [sessionStep].
    rewrite (sessions_untouched
               (map (fun s => SourceStop (node_id s)) (sourcesRef (refs m))))
      by (now apply flat_map_map_nil).
    apply filter_In. split.
    + apply in_or_app. now left.
    + apply Bool.negb_true_iff, Nat.eqb_neq. lia.
Qed.

(** X3.  Start, open, click again: the second click runs in a render
    whose flag is set, so it stops.  Everything the start acquired is
    released — the tracks of the stream are stopped, both contexts and
    the session are closed — the sources that were playing are
    stopped, and the voice state is that of the mounted component,
    with the image state untouched. *)
Theorem toggle_releases_what_start_acquired r stream media' m :
  isLiveActive r = false ->
  exists m1 m2 m3,
    startVoiceSession r (Granted stream) m = (Normal tt, m1) /\
    onopen (S (S (fresh (world m)))) m1 = (Normal tt, m2) /\
    isLiveActive (react m2) = true /\
    status (react m2) = VOICE_ACTIVE /\
    startVoiceSession (react m2) media' m2 = (Normal tt, m3) /\
    voiceState m3 = voiceState initialMachine /\
    imageState (react m3) = imageState (react m) /\
    added m m3
    = ([NewAudioContext (fresh (world m)) 16000;
        NewAudioContext (S (fresh (world m))) 24000;
        LiveConnect (S (S (fresh (world m)))) r;
        CaptureWired (S (S (fresh (world m))))]
       ++ map TrackStop (getTracks stream)
       ++ [ContextClose (fresh (world m));
           ContextClose (S (fresh (world m)))]
       ++ map (fun s => SourceStop (node_id s)) (sourcesRef (refs m))
       ++ [SessionClose (S (S (fresh (world m))))])%list.
Proof.
  intros H.
  pose (m1 := started r stream m).
  pose (m2 := log (CaptureWired (S (S (fresh (world m)))))
                (setStatus VOICE_ACTIVE (setIsLiveActive true m1))).
  exists m1, m2, (stopped m2).
  split; [now apply startVoiceSession_runs|].
  split; [apply onopen_runs|].
  split; [reflexivity|]. split; [reflexivity|].
  split.
  { unfold startVoiceSession.
    replace (isLiveActive (react m2)) with true by reflexivity.
    apply stopVoiceSession_runs. }
  split; [reflexivity|]. split; [reflexivity|].
  destruct m as [[st img live txt] [ac cur srcs sess strm] [f t]].
  unfold added, stopped, stopEffects, closing, m2, m1, started.
  machine_norm. cbn [input output ctx_state ctx_id app].
  rewrite <- !app_assoc. cbn [app]. apply skipn_exact.
Qed.

(** X4.  A remote close and a remote error on any session run the
    same teardown: they end normally, set the voice state to that of
    the mounted component and keep the image state.  The session they
    close is the one the reference holds, whichever session reported;
    the error is logged first. *)
Theorem transport_end_tears_down sid m :
  exists m1 m2,
    onclose sid m = (Normal tt, m1) /\
    onerror sid m = (Normal tt, m2) /\
    voiceState m1 = voiceState initialMachine /\
    voiceState m2 = voiceState initialMachine /\
    imageState (react m1) = imageState (react m) /\
    imageState (react m2) = imageState (react m) /\
    flat_map sessionClose (added m m1)
    = match sessionRef (refs m) with
      | Some held => [held]
      | None => []
      end /\
    added m m2 = ConsoleError "Session Error:" :: added m m1.
Proof.
  exists (stopped m), (stopped (log (ConsoleError "Session Error:") m)).
  split; [apply stopVoiceSession_runs|].
  split.
  { unfold onerror, bind, emit, modify. apply stopVoiceSession_runs. }
  split; [reflexivity|]. split; [reflexivity|].
  split; [reflexivity|].
  split; [now destruct m as [[st img live txt] rf [f t]]|].
  rewrite added_stopped. split; [apply stopEffects_closes|].
  destruct m as [[st img live txt] rf [f t]].
  unfold added, stopped. machine_norm. rewrite <- app_assoc.
  apply skipn_exact.
Qed.

(** X5.  [onopen] does not look at the session reference.  When it
    runs after [stopVoiceSession] (a session stopped while it was
    connecting), the active flag is set and the status is
    [VOICE_ACTIVE] although no session, stream or context is held; the
    next click then runs the stop branch and connects nothing. *)
Theorem open_after_stop_marks_active sid media m :
  exists m1 m2 m3,
    stopVoiceSession m = (Normal tt, m1) /\
    onopen sid m1 = (Normal tt, m2) /\
    isLiveActive (react m2) = true /\
    status (react m2) = VOICE_ACTIVE /\
    refs m2 = initialRefs /\
    startVoiceSession (react m2) media m2 = (Normal tt, m3) /\
    added m2 m3 = [] /\
    voiceState m3 = voiceState initialMachine.
Proof.
  pose (m2 := log (CaptureWired sid)
                (setStatus VOICE_ACTIVE (setIsLiveActive true (stopped m)))).
  exists (stopped m), m2, (stopped m2).
  split; [apply stopVoiceSession_runs|].
  split; [apply onopen_runs|].
  split; [reflexivity|]. split; [reflexivity|]. split; [reflexivity|].
  split.
  { unfold startVoiceSession.
    replace (isLiveActive (react m2)) with true by reflexivity.
    apply stopVoiceSession_runs. }
  split; [|reflexivity].
  rewrite added_stopped. reflexivity.
Qed.

(** ** Runs of messages *)

Lemma handled_trace r sid now msg m :
  trace (world (handled r sid now msg m))
  = (trace (world m) ++ added m (handled r sid now msg m))%list.
Proof.
  rewrite handled_added.
  destruct m as [[st img live txt] [ac cur srcs sess strm] [f t]].
  unfold handled, afterRespond, afterInterrupt, afterDispatch,
    afterTranscription, afterAudio, scheduledBy.
  destruct (played now msg _) as [s|], (isInterrupted msg),
    (serverContent msg) as [[turn [tr|] i]|];
    cbn [outputTranscription]; machine_norm; cbn [map app];
    rewrite ?app_nil_r; repeat rewrite <- app_assoc; cbn [app];
    rewrite ?app_nil_r; reflexivity.
Qed.

Lemma added_trans m m1 m2 :
  trace (world m1) = (trace (world m) ++ added m m1)%list ->
  trace (world m2) = (trace (world m1) ++ added m1 m2)%list ->
  trace (world m2) = (trace (world m) ++ added m m2)%list /\
  added m m2 = (added m m1 ++ added m1 m2)%list.
Proof.
  intros H1 H2.
  assert (H : trace (world m2)
              = (trace (world m) ++ added m m1 ++ added m1 m2)%list)
    by (now rewrite H2, H1, <- app_assoc).
  assert (Ha : added m m2 = (added m m1 ++ added m1 m2)%list)
    by (unfold added at 1; rewrite H; apply skipn_exact).
  split; [now rewrite Ha|exact Ha].
Qed.

Lemma added_refl m : added m m = [].
Proof. now apply added_same_trace. Qed.

Lemma onmessages_run r sid inbound m :
  exists m',
    onmessages r sid inbound m = (Normal tt, m') /\
    trace (world m') = (trace (world m) ++ added m m')%list.
Proof.
  revert m. induction inbound as [|[now msg] rest IH]; intros m.
  - exists m. split; [reflexivity|].
    now rewrite added_refl, app_nil_r.
  - destruct (IH (handled r sid now msg m)) as [m' [Hrun Htrace]].
    exists m'. split; [now rewrite onmessages_cons|].
    apply (added_trans m _ m' (handled_trace r sid now msg m) Htrace).
Qed.

Lemma played_start now msg m s :
  played now msg m = Some s ->
  node_when s = Qmax (nextStartTimeRef (refs m)) now /\
  node_id s = fresh (world m).
Proof.
  unfold played. destruct (audioBase64 msg) as [payload|]; [|discriminate].
  destruct (audioContextRef (refs m)); [|discriminate].
  destruct (payload =? ""); [discriminate|]. now intros [= <-].
Qed.

(** X6.  Messages without the interruption flag — with or without
    audio, with or without audio contexts — never move the cursor back
    and never take a source out of the set: a source stays there after
    it has finished playing, until an interruption or a stop. *)
Theorem cursor_never_moves_back r sid inbound m :
  Forall (fun x => isInterrupted (snd x) = false) inbound ->
  exists m' nodes,
    onmessages r sid inbound m = (Normal tt, m') /\
    (nextStartTimeRef (refs m) <= nextStartTimeRef (refs m'))%Q /\
    sourcesRef (refs m') = (sourcesRef (refs m) ++ nodes)%list.
Proof.
  revert m. induction inbound as [|[now msg] rest IH]; intros m Hall.
  - exists m, []. split; [reflexivity|]. split; [apply Qle_refl|].
    now rewrite app_nil_r.
  - inversion Hall as [|x l Hint Hrest]; subst. cbn [snd] in Hint.
    destruct (IH (handled r sid now msg m) Hrest)
      as [m' [nodes [Hrun [Hcur Hsrc]]]].
    rewrite handled_refs, Hint in Hcur, Hsrc.
    cbn [nextStartTimeRef sourcesRef] in Hcur, Hsrc.
    exists m', (scheduledBy now msg m ++ nodes)%list.
    split; [now rewrite onmessages_cons|].
    split; [|now rewrite Hsrc, <- app_assoc].
    eapply Qle_trans; [|exact Hcur].
    destruct (played now msg m) as [s|] eqn:Hp; [|apply Qle_refl].
    destruct (played_start now msg m s Hp) as [Hwhen _]. rewrite Hwhen.
    eapply Qle_trans; [apply Q.le_max_l|].
    rewrite <- Qplus_0_r at 1. apply Qplus_le_r, duration_nonneg.
Qed.

(** X7.  A chunk is never started in the past nor before the cursor:
    its start is at least the clock reading and at least the cursor.
    When the clock has passed the cursor (the previous chunk ended
    before this one arrived) the chunk starts at the clock, after a
    gap; when the cursor is ahead it starts at the cursor. *)
Theorem chunk_starts_at_clock_or_cursor r sid now msg m :
  audioContextRef (refs m) <> None ->
  truthy (audioBase64 msg) = true ->
  isInterrupted msg = false ->
  exists m' s,
    onmessage r sid now msg m = (Normal tt, m') /\
    sourcesRef (refs m') = (sourcesRef (refs m) ++ [s])%list /\
    flat_map sourceStart (added m m') = [(node_id s, node_when s)] /\
    (now <= node_when s)%Q /\
    (nextStartTimeRef (refs m) <= node_when s)%Q /\
    ((nextStartTimeRef (refs m) <= now)%Q -> (node_when s == now)%Q) /\
    ((now <= nextStartTimeRef (refs m))%Q ->
     (node_when s == nextStartTimeRef (refs m))%Q).
Proof.
  intros Hctx Haudio Hint.
  destruct (played_audio now msg m Hctx Haudio) as [payload [_ Hp]].
  eexists. eexists. split; [apply onmessage_runs|].
  rewrite handled_refs, handled_added, Hint. unfold scheduledBy.
  rewrite Hp. cbn [sourcesRef node_when node_id map app].
  split; [reflexivity|]. split.
  { cbn [flat_map sourceStart app]. rewrite flat_map_app.
    rewrite (flat_map_flat_map_nil sourceStart).
    - destruct (sessionRef (refs m)); [|reflexivity].
      now rewrite (flat_map_map_nil sourceStart).
    - intros fc. unfold requestOf.
      destruct (name fc =? "generateImage"); [reflexivity|].
      destruct ((name fc =? "editImage") || (name fc =? "posterLayout"));
        [|reflexivity].
      now destruct (truthy (ImageState.base64 (imageState r))). }
  split; [apply Q.le_max_r|]. split; [apply Q.le_max_l|].
  split; [apply Q.max_r|apply Q.max_l].
Qed.

(** X8.  After an interruption the cursor is zero, so the next chunk
    starts at the clock reading of its message and not at the end of
    what was cancelled; it is then the only source in the set. *)
Theorem chunk_after_interruption_starts_at_clock r sid now1 msg1 now2 msg2 m :
  isInterrupted msg1 = true ->
  audioContextRef (refs m) <> None ->
  truthy (audioBase64 msg2) = true ->
  isInterrupted msg2 = false ->
  (0 <= now2)%Q ->
  exists m1 m2 s,
    onmessage r sid now1 msg1 m = (Normal tt, m1) /\
    onmessage r sid now2 msg2 m1 = (Normal tt, m2) /\
    sourcesRef (refs m2) = [s] /\
    (node_when s == now2)%Q /\
    (nextStartTimeRef (refs m2) == now2 + duration (node_buffer s))%Q.
Proof.
  intros Hint1 Hctx Haudio Hint2 Hnow.
  pose (m1 := handled r sid now1 msg1 m).
  assert (Hrefs1 : refs m1 = _) by apply handled_refs.
  rewrite Hint1 in Hrefs1.
  assert (Hctx1 : audioContextRef (refs m1) <> None)
    by (rewrite Hrefs1; exact Hctx).
  destruct (played_audio now2 msg2 m1 Hctx1 Haudio) as [payload [_ Hp]].
  rewrite Hrefs1 in Hp. cbn [nextStartTimeRef] in Hp.
  exists m1. eexists. eexists.
  split; [apply onmessage_runs|]. split; [apply onmessage_runs|].
  fold m1. rewrite handled_refs, Hint2. unfold scheduledBy. rewrite Hp.
  rewrite Hrefs1. cbn [sourcesRef nextStartTimeRef node_when node_buffer app].
  split; [reflexivity|].
  assert (Hmax : (Qmax 0 now2 == now2)%Q) by (apply Q.max_r; exact Hnow).
  split; [exact Hmax|]. apply Qplus_inj_r. exact Hmax.
Qed.

Lemma requestOf_requests r fc : Forall isRequest (requestOf r fc).
Proof.
  unfold requestOf, isRequest.
  destruct (name fc =? "generateImage"); [repeat econstructor|].
  destruct ((name fc =? "editImage") || (name fc =? "posterLayout"));
    [|constructor].
  destruct (truthy (ImageState.base64 (imageState r)));
    repeat econstructor.
Qed.

Lemma requests_of_calls r fcs :
  Forall isRequest (flat_map (requestOf r) fcs).
Proof.
  induction fcs as [|fc fcs IH]; [constructor|].
  cbn [flat_map]. apply Forall_app. split; [apply requestOf_requests|exact IH].
Qed.

(** X9.  Once [stopVoiceSession] has emptied the refs, messages that
    still arrive schedule no audio and are not answered: the refs stay
    empty, and all that reaches the outside are the requests of the
    creative actions their tool calls start. *)
Theorem late_messages_only_start_actions r sid inbound m :
  refs m = initialRefs ->
  exists m',
    onmessages r sid inbound m = (Normal tt, m') /\
    refs m' = initialRefs /\
    fresh (world m') = fresh (world m) /\
    Forall isRequest (added m m').
Proof.
  revert m. induction inbound as [|[now msg] rest IH]; intros m Hrefs.
  - exists m. split; [reflexivity|]. split; [exact Hrefs|].
    split; [reflexivity|]. rewrite added_refl. constructor.
  - pose (m1 := handled r sid now msg m).
    assert (Hp : played now msg m = None).
    { unfold played. rewrite Hrefs. cbn [audioContextRef initialRefs].
      now destruct (audioBase64 msg). }
    assert (Hrefs1 : refs m1 = initialRefs).
    { unfold m1. rewrite handled_refs. unfold scheduledBy. rewrite Hp, Hrefs.
      cbn. now destruct (isInterrupted msg). }
    assert (Hadd1 : Forall isRequest (added m m1)).
    { unfold m1. rewrite handled_added. unfold scheduledBy.
      rewrite Hp, Hrefs. cbn [map app sourcesRef sessionRef initialRefs].
      rewrite app_nil_r.
      replace (if isInterrupted msg then [] else [])
        with (@nil Effect) by (now destruct (isInterrupted msg)).
      rewrite app_nil_r. apply requests_of_calls. }
    assert (Hfresh1 : fresh (world m1) = fresh (world m)).
    { unfold m1, handled, afterRespond, afterInterrupt, afterDispatch,
        afterTranscription, afterAudio. rewrite Hp.
      destruct m as [[st img live txt] rf [f t]].
      destruct (isInterrupted msg),
        (serverContent msg) as [[turn [tr|] i]|]; reflexivity. }
    destruct (IH m1 Hrefs1) as [m' [Hrun [Hrefs' [Hfresh' Hadd']]]].
    exists m'. split; [now rewrite onmessages_cons|].
    split; [exact Hrefs'|]. split; [now rewrite Hfresh'|].
    destruct (onmessages_run r sid rest m1) as [m'' [Hrun'' Htrace]].
    rewrite Hrun in Hrun''. injection Hrun'' as <-.
    destruct (added_trans m m1 m' (handled_trace r sid now msg m) Htrace)
      as [_ ->].
    apply Forall_app. split; assumption.
Qed.

(** X10.  The AI text shown is replaced, never appended to: after any
    run of messages it is the text of the last message that carried a
    transcription, and the text shown before when none did. *)
Theorem transcription_last_wins r sid inbound m :
  exists m',
    onmessages r sid inbound m = (Normal tt, m') /\
    aiResponseText (react m')
    = lastTranscription (aiResponseText (react m)) inbound.
Proof.
  revert m. induction inbound as [|[now msg] rest IH]; intros m.
  - exists m. split; reflexivity.
  - destruct (IH (handled r sid now msg m)) as [m' [Hrun Htext]].
    exists m'. split; [now rewrite onmessages_cons|].
    rewrite Htext, handled_react. cbn [aiResponseText lastTranscription].
    f_equal. unfold afterTranscription, transcriptionOf.
    destruct (serverContent msg) as [sc|]; [|reflexivity].
    now destruct (outputTranscription sc).
Qed.

(** ** Images *)

Lemma added_log_status e v m : added m (log e (setStatus v m)) = [e].
Proof.
  destruct m as [[st img live txt] rf [f t]]. unfold added. machine_norm.
  apply skipn_exact.
Qed.

(** X11.  A [generateImage] whose response carries an image, and an
    [editImage] on an existing image whose response carries one, end
    normally and make that image current: the URL is the data URL of
    its payload, the raw form is the payload, the timestamp is the
    time of adoption.  One request went out — the prompt behind the
    fixed qualifier for a generation, the raw image of the calling
    render and the instruction for an edit — nothing is logged, and
    the status is restored. *)
Theorem successful_action_shows_the_image :
  (forall r prompt ts resp m d,
     firstImage resp = Some d ->
     exists m',
       generateImage r prompt ts resp m = (Normal tt, m') /\
       ImageState.url (imageState (react m'))
       = Some ("data:image/png;base64," ++ interpolate (data d)) /\
       ImageState.base64 (imageState (react m')) = data d /\
       ImageState.timestamp (imageState (react m')) = Some ts /\
       status (react m') = (if isLiveActive r then VOICE_ACTIVE else IDLE) /\
       added m m'
       = [GenerateContent None ("High quality, aesthetic, " ++ prompt)]) /\
  (forall r prompt ts resp m d,
     truthy (ImageState.base64 (imageState r)) = true ->
     firstImage resp = Some d ->
     exists m',
       editImage r prompt ts resp m = (Normal tt, m') /\
       ImageState.url (imageState (react m'))
       = Some ("data:image/png;base64," ++ interpolate (data d)) /\
       ImageState.base64 (imageState (react m')) = data d /\
       ImageState.timestamp (imageState (react m')) = Some ts /\
       status (react m') = (if isLiveActive r then VOICE_ACTIVE else IDLE) /\
       added m m'
       = [GenerateContent (ImageState.base64 (imageState r))
            ("Modify the image based on this: " ++ prompt)]).
Proof.
  split.
  - intros r prompt ts resp m d Hd. eexists.
    split; [apply generateImage_runs|].
    rewrite added_after_request, Hd.
    destruct m as [[st img live txt] rf [f t]].
    unfold settled, adopted. rewrite Hd. now machine_norm.
  - intros r prompt ts resp m d Hbase Hd. eexists.
    split; [now apply editImage_runs|].
    rewrite added_after_request, Hd.
    destruct m as [[st img live txt] rf [f t]].
    unfold settled, adopted. rewrite Hd. now machine_norm.
Qed.

Lemma scanParts_stops_at_image ts pre part post :
  inlineData part <> None ->
  scanParts ts (pre ++ part :: post) = scanParts ts (pre ++ [part]).
Proof.
  intros Hpart. induction pre as [|p pre IH]; cbn [app scanParts].
  - destruct (inlineData part); [reflexivity|contradiction].
  - destruct (inlineData p); [reflexivity|exact IH].
Qed.

(** X12.  Only the first candidate of a response is read, and in it
    the scan stops at the first part with inline data: further
    candidates and further parts change nothing.  A response whose
    first candidate holds no image therefore leaves the image state
    as it was, even when a later candidate holds one. *)
Theorem only_the_first_image_counts r ts :
  (forall candidate others,
     generateImage_settle r ts (Resolved (candidate :: others))
     = generateImage_settle r ts (Resolved [candidate]) /\
     editImage_settle r ts (Resolved (candidate :: others))
     = editImage_settle r ts (Resolved [candidate])) /\
  (forall pre part post,
     inlineData part <> None ->
     generateImage_settle r ts (Resolved [mkContent (pre ++ part :: post)])
     = generateImage_settle r ts (Resolved [mkContent (pre ++ [part])]) /\
     editImage_settle r ts (Resolved [mkContent (pre ++ part :: post)])
     = editImage_settle r ts (Resolved [mkContent (pre ++ [part])])) /\
  (forall candidate others m,
     firstInline (parts candidate) = None ->
     exists m',
       generateImage_settle r ts (Resolved (candidate :: others)) m
       = (Normal tt, m') /\
       imageState (react m') = imageState (react m) /\
       added m m' = []).
Proof.
  split; [|split].
  - intros candidate others. split; reflexivity.
  - intros pre part post Hpart.
    unfold generateImage_settle, editImage_settle, readResponse.
    cbn [parts]. rewrite (scanParts_stops_at_image ts pre part post Hpart).
    split; reflexivity.
  - intros candidate others m Hnone. eexists.
    split; [apply generateImage_settle_runs|].
    assert (Hfirst : firstImage (Resolved (candidate :: others)) = None)
      by exact Hnone.
    split.
    + now apply failed_settled.
    + rewrite added_settled, Hfirst. reflexivity.
Qed.

Lemma flat_map_flat_map {A B C : Type} (f : B -> list C)
  (g : A -> list B) l :
  flat_map f (flat_map g l) = flat_map (fun x => flat_map f (g x)) l.
Proof.
  induction l as [|x l IH]; cbn; [reflexivity|].
  now rewrite flat_map_app, IH.
Qed.

(** X13.  The requests a delivered message causes are fixed by its
    tool calls and by the render that started the session, not by the
    image the component shows when the message arrives: a generation
    call sends its prompt; an edit or poster call sends the raw image
    that render held, and sends nothing when that render held none —
    also after images have been generated or uploaded since. *)
Theorem actions_read_the_render_that_started_the_session sid now msg r m :
  callbacksOf (trace (world m)) sid = Some r ->
  exists m',
    deliver sid now msg m = (Normal tt, m') /\
    flat_map request (added m m')
    = flat_map
        (fun fc =>
           if name fc =? "generateImage" then
             [(None, "High quality, aesthetic, " ++ prompt (args fc))]
           else if (name fc =? "editImage") || (name fc =? "posterLayout")
           then
             if truthy (ImageState.base64 (imageState r)) then
               [(ImageState.base64 (imageState r),
                 "Modify the image based on this: " ++ editPrompt (args fc))]
             else []
           else [])
        (functionCalls msg).
Proof.
  intros Hr. exists (handled r sid now msg m).
  split; [unfold deliver; rewrite Hr; apply onmessage_runs|].
  rewrite handled_added, !flat_map_app.
  rewrite (flat_map_map_nil request) by reflexivity.
  assert (Hstops : flat_map request
            (if isInterrupted msg
             then map (fun s => SourceStop (node_id s))
                    (sourcesRef (refs m) ++ scheduledBy now msg m)
             else []) = []).
  { destruct (isInterrupted msg); [|reflexivity].
    now apply flat_map_map_nil. }
  assert (Hacks : flat_map request
            match sessionRef (refs m) with
            | Some _ => map (acknowledgement sid) (functionCalls msg)
            | None => []
            end = []).
  { destruct (sessionRef (refs m)); [|reflexivity].
    now apply flat_map_map_nil. }
  rewrite Hstops, Hacks, !app_nil_r. cbn [app].
  rewrite flat_map_flat_map. apply flat_map_ext. intros fc.
  unfold requestOf.
  destruct (name fc =? "generateImage"); [reflexivity|].
  destruct ((name fc =? "editImage") || (name fc =? "posterLayout"));
    [|reflexivity].
  now destruct (truthy (ImageState.base64 (imageState r))).
Qed.

(** X14.  The dispatcher and the declared tools agree: a call whose
    name is declared runs [generateImage] or [editImage], and a call
    whose name is not declared runs nothing.  Every declared tool
    requires the [prompt] the dispatcher reads. *)
Theorem declared_tools_are_the_dispatched r fc :
  (In (name fc) (map decl_name tools) ->
   dispatch r fc = generateImage_request (prompt (args fc)) \/
   dispatch r fc = (editImage_request r (editPrompt (args fc)) ;; ret tt)) /\
  (~ In (name fc) (map decl_name tools) -> dispatch r fc = ret tt) /\
  Forall (fun d => In "prompt" (decl_required d)) tools.
Proof.
  split; [|split].
  - cbn. intros [H|[H|[H|[]]]]; unfold dispatch; rewrite <- H; cbn;
      [left|right|right]; reflexivity.
  - cbn. intros H. unfold dispatch.
    destruct (name fc =? "generateImage") eqn:Eg.
    { apply String.eqb_eq in Eg. exfalso. apply H. now left. }
    destruct (name fc =? "editImage") eqn:Ee.
    { apply String.eqb_eq in Ee. exfalso. apply H. right. now left. }
    destruct (name fc =? "posterLayout") eqn:Ep.
    { apply String.eqb_eq in Ep. exfalso. apply H. right. right. now left. }
    reflexivity.
  - repeat constructor; cbn; auto.
Qed.

(** X15.  Picking a thumbnail makes the item current and leaves the
    history as it is — nothing is added, moved or dropped — as well
    as the status, the refs and the trace; picking the same item again
    changes nothing more.  An edit then called in the current render
    sends the raw image of the picked item, when it has one. *)
Theorem picked_item_becomes_current item prompt m :
  exists m1,
    selectFromHistory item m = (Normal tt, m1) /\
    imageState (react m1)
    = ImageState.mk (Some (HistoryItem.url item)) (HistoryItem.base64 item)
        (Some (HistoryItem.timestamp item))
        (ImageState.history (imageState (react m))) /\
    status (react m1) = status (react m) /\
    refs m1 = refs m /\
    world m1 = world m /\
    selectFromHistory item m1 = (Normal tt, m1) /\
    (truthy (HistoryItem.base64 item) = true ->
     exists m2,
       editImage_request (react m1) prompt m1 = (Normal true, m2) /\
       status (react m2) = EDITING /\
       added m1 m2
       = [GenerateContent (HistoryItem.base64 item)
            ("Modify the image based on this: " ++ prompt)]).
Proof.
  destruct m as [[st img live txt] rf [f t]].
  eexists. split; [reflexivity|]. machine_norm.
  split; [reflexivity|]. split; [reflexivity|]. split; [reflexivity|].
  split; [reflexivity|]. split; [reflexivity|].
  intros Hbase. unfold editImage_request. cbn [imageState ImageState.base64].
  rewrite Hbase. cbn [negb]. eexists. split; [reflexivity|].
  split; [reflexivity|]. unfold added. machine_norm. apply skipn_exact.
Qed.

Lemma split_no_separator sep s : occurs sep s = false -> split sep s = [s].
Proof.
  induction s as [|c s IH]; cbn; [reflexivity|].
  destruct (Ascii.eqb c sep); [discriminate|]. cbn [orb].
  intros H. now rewrite (IH H).
Qed.

Lemma split_at_first sep a b :
  occurs sep a = false ->
  split sep (a ++ String sep b) = a :: split sep b.
Proof.
  induction a as [|c a IH]; cbn.
  - intros _. now rewrite Ascii.eqb_refl.
  - destruct (Ascii.eqb c sep); [discriminate|]. cbn [orb].
    intros H. now rewrite (IH H).
Qed.

(** X16.  A file read as [<header>,<payload>] with no comma inside
    header or payload becomes current with the whole data URL as URL
    and the payload as raw image; it heads a history of at most ten
    entries, and status, refs and trace stay as they were.  When the
    text read holds no comma, there is no raw image, and an edit
    called in the render that follows returns at its guard.  When no
    file was chosen nothing happens. *)
Theorem upload_keeps_the_payload r ts m :
  (forall header payload,
     occurs "," header = false ->
     occurs "," payload = false ->
     exists m',
       handleImageUpload r (Some (header ++ "," ++ payload)) ts m
       = (Normal tt, m') /\
       ImageState.url (imageState (react m'))
       = Some (header ++ "," ++ payload) /\
       ImageState.base64 (imageState (react m')) = Some payload /\
       ImageState.timestamp (imageState (react m')) = Some ts /\
       nth_error (ImageState.history (imageState (react m'))) 0
       = Some (HistoryItem.mk (header ++ "," ++ payload) (Some payload) ts) /\
       status (react m') = status (react m) /\
       refs m' = refs m /\ world m' = world m) /\
  (forall result prompt,
     occurs "," result = false ->
     exists m',
       handleImageUpload r (Some result) ts m = (Normal tt, m') /\
       ImageState.url (imageState (react m')) = Some result /\
       ImageState.base64 (imageState (react m')) = None /\
       editImage_request (react m') prompt m' = (Normal false, m')) /\
  handleImageUpload r None ts m = (Normal tt, m).
Proof.
  destruct m as [[st img live txt] rf [f t]].
  split; [|split; [|reflexivity]].
  - intros header payload Hh Hp. eexists. split; [reflexivity|].
    unfold handleImageUpload. machine_norm.
    change (header ++ "," ++ payload)
      with (header ++ String "," payload).
    rewrite (split_at_first _ _ _ Hh), (split_no_separator _ _ Hp).
    cbn [nth_error ImageState.url ImageState.base64 ImageState.timestamp
         ImageState.history firstn].
    repeat (split; [reflexivity|]). reflexivity.
  - intros result prompt Hr. eexists. split; [reflexivity|].
    unfold editImage_request. machine_norm.
    rewrite (split_no_separator _ _ Hr).
    cbn [nth_error ImageState.url ImageState.base64]. 
    split; [reflexivity|]. split; [reflexivity|]. reflexivity.
Qed.

(** ** Every reachable state *)

Lemma handle_runs e m : handle e m = (completionOf e m, after e m).
Proof.
  destruct e as [[stream|reason]|sid|sid now msg|sid|sid|r ts resp
                |r ts resp|r [result|] ts|item];
    cbn [handle after completionOf].
  - unfold startVoiceSession at 1.
    destruct (isLiveActive (react m)) eqn:E.
    + apply stopVoiceSession_runs.
    + pose proof (startVoiceSession_runs (react m) stream m E) as H.
      unfold startVoiceSession in H. now rewrite E in H.
  - unfold startVoiceSession at 1.
    destruct (isLiveActive (react m)) eqn:E.
    + apply stopVoiceSession_runs.
    + pose proof (startVoiceSession_refused (react m) reason m E) as H.
      unfold startVoiceSession in H. now rewrite E in H.
  - apply onopen_runs.
  - unfold deliver. destruct (callbacksOf (trace (world m)) sid);
      [apply onmessage_runs|reflexivity].
  - unfold onerror, bind, emit, modify. apply stopVoiceSession_runs.
  - apply stopVoiceSession_runs.
  - apply generateImage_settle_runs.
  - apply editImage_settle_runs.
  - reflexivity.
  - reflexivity.
  - reflexivity.
Qed.

Lemma run_cons e rest m :
  run (e :: rest) m
  = (completionOf e m :: fst (run rest (after e m)),
     snd (run rest (after e m))).
Proof.
  cbn [run]. rewrite handle_runs. now destruct (run rest (after e m)).
Qed.

Lemma run_keeps (P : Machine -> Prop) :
  (forall e m, P m -> P (after e m)) ->
  forall events m, P m -> P (snd (run events m)).
Proof.
  intros Hstep events. induction events as [|e events IH]; intros m HP.
  - exact HP.
  - rewrite run_cons. cbn [snd]. apply IH, Hstep, HP.
Qed.

Lemma run_completions events m :
  Forall2 endsAs events (fst (run events m)).
Proof.
  revert m. induction events as [|e events IH]; intros m.
  - constructor.
  - rewrite run_cons. cbn [fst]. constructor; [|apply IH].
    destruct e as [[stream|reason]| | | | | | | |]; cbn; try reflexivity.
    destruct (isLiveActive (react m)); [now left|now right].
Qed.

Lemma settled_frame label r ts resp m :
  refs (settled label r ts resp m) = refs m /\
  fresh (world (settled label r ts resp m)) = fresh (world m).
Proof.
  destruct m as [[st img live txt] rf [f t]]. unfold settled, adopted.
  destruct (firstImage resp); [|destruct (threw resp)]; now machine_norm.
Qed.

Lemma settled_history label r ts resp m :
  ImageState.history (imageState (react (settled label r ts resp m)))
  = match firstImage resp with
    | Some d =>
        firstn 10 (artifact d ts
                     :: ImageState.history (imageState (react m)))
    | None => ImageState.history (imageState (react m))
    end.
Proof.
  destruct m as [[st img live txt] rf [f t]]. unfold settled, adopted.
  destruct (firstImage resp); [|destruct (threw resp)]; now machine_norm.
Qed.

Lemma handled_fresh r sid now msg m :
  fresh (world (handled r sid now msg m))
  = (List.length (scheduledBy now msg m) + fresh (world m))%nat.
Proof.
  destruct m as [[st img live txt] [ac cur srcs sess strm] [f t]].
  unfold handled, afterRespond, afterInterrupt, afterDispatch,
    afterTranscription, afterAudio, scheduledBy.
  destruct (played now msg _) as [s|], (isInterrupted msg),
    (serverContent msg) as [[turn [tr|] i]|];
    cbn [outputTranscription]; machine_norm; reflexivity.
Qed.

(** X17.  A history of at most ten entries stays one through any
    sequence of clicks, session callbacks, settled actions, file reads
    and picks, whether or not a handler on the way ended with an
    exception.  The one handler that can end with one is the click
    whose [getUserMedia] rejects: a rejected request, a response
    without candidates, a [stop()] or a [close()] that raises never
    leave their handler. *)
Theorem history_stays_bounded events m :
  historyBounded m ->
  historyBounded (snd (run events m)) /\
  Forall2 endsAs events (fst (run events m)).
Proof.
  intros H0. split; [|apply run_completions].
  revert H0. apply run_keeps. clear events m. intros e m H.
  unfold historyBounded in *.
  destruct e as [[stream|reason]|sid|sid now msg|sid|sid|r ts resp
                |r ts resp|r [result|] ts|item]; cbn [after].
  - destruct (isLiveActive (react m)); exact H.
  - destruct (isLiveActive (react m)); exact H.
  - now destruct m as [[st img live txt] rf [f t]].
  - destruct (callbacksOf (trace (world m)) sid); [|exact H].
    now rewrite handled_react.
  - now destruct m as [[st img live txt] rf [f t]].
  - exact H.
  - rewrite settled_history. destruct (firstImage resp); [|exact H].
    apply firstn_le_length.
  - rewrite settled_history. destruct (firstImage resp); [|exact H].
    apply firstn_le_length.
  - destruct m as [[st img live txt] rf [f t]]. machine_norm.
    apply firstn_le_length.
  - exact H.
  - now destruct m as [[st img live txt] rf [f t]].
Qed.

Lemma after_playback e m : playbackStep m (after e m).
Proof.
  destruct e as [[stream|reason]|sid|sid now msg|sid|sid|r ts resp
                |r ts resp|r [result|] ts|item]; cbn [after].
  - destruct (isLiveActive (react m)).
    + now apply Cleared.
    + apply Untouched; cbn; try reflexivity. lia.
  - destruct (isLiveActive (react m)).
    + now apply Cleared.
    + apply Untouched; cbn; try reflexivity. lia.
  - destruct m as [[st img live txt] rf [f t]]. now apply Untouched.
  - destruct (callbacksOf (trace (world m)) sid) as [r|];
      [|now apply Untouched].
    pose proof (handled_refs r sid now msg m) as Hrefs.
    pose proof (handled_fresh r sid now msg m) as Hfresh.
    destruct (isInterrupted msg).
    { apply Cleared; now rewrite Hrefs. }
    unfold scheduledBy in *. destruct (played now msg m) as [s|] eqn:Hp.
    + unfold played in Hp.
      destruct (audioBase64 msg) as [payload|]; [|discriminate].
      destruct (audioContextRef (refs m)); [|discriminate].
      destruct (payload =? ""); [discriminate|]. injection Hp as <-.
      apply (Scheduled m _ now (decodeAudioData payload));
        [now rewrite Hrefs|now rewrite Hrefs|exact Hfresh].
    + apply Untouched; [now rewrite Hrefs| |rewrite Hfresh; cbn; lia].
      rewrite Hrefs. cbn. apply app_nil_r.
  - now apply Cleared.
  - now apply Cleared.
  - destruct (settled_frame "生成失败:" r ts resp m) as [Hr Hf].
    apply Untouched; rewrite ?Hr, ?Hf; reflexivity.
  - destruct (settled_frame "编辑失败:" r ts resp m) as [Hr Hf].
    apply Untouched; rewrite ?Hr, ?Hf; reflexivity.
  - destruct m as [[st img live txt] rf [f t]]. now apply Untouched.
  - now apply Untouched.
  - destruct m as [[st img live txt] rf [f t]]. now apply Untouched.
Qed.

(** X18.  In every state the events lead to, the sources in the set
    carry numbers the allocator has given out, no two the same: each
    source added is a new object, and [Set.add] never meets one it
    already holds. *)
Theorem sources_stay_distinct events m :
  sourcesDistinct m -> sourcesDistinct (snd (run events m)).
Proof.
  apply run_keeps. clear events m. intros e m [Hlt Hnd].
  unfold sourcesDistinct.
  destruct (after_playback e m) as [Hc Hs Hf|Hc Hs|now buffer s Hc Hs Hf].
  - rewrite Hs. split; [|exact Hnd].
    eapply Forall_impl; [|exact Hlt]. cbn. intros a Ha. lia.
  - rewrite Hs. split; constructor.
  - rewrite Hs, Hf. split.
    + apply Forall_app. split.
      * eapply Forall_impl; [|exact Hlt]. cbn. intros a Ha. lia.
      * constructor; [cbn; lia|constructor].
    + rewrite map_app. cbn [map]. apply NoDup_app; [exact Hnd| |].
      * constructor; [intros []|constructor].
      * intros x Hx [<-|[]]. apply in_map_iff in Hx as [a [Ha Hin]].
        rewrite Forall_forall in Hlt. specialize (Hlt a Hin).
        cbn in Ha. lia.
Qed.

Lemma sorted_snoc {A : Type} (R : A -> A -> Prop) l x :
  StronglySorted R l -> Forall (fun a => R a x) l ->
  StronglySorted R (l ++ [x]).
Proof.
  induction 1 as [|a l Hs IH Ha]; intros Hx; cbn.
  - repeat constructor.
  - inversion Hx as [|? ? Hax Hlx]; subst. constructor.
    + apply IH, Hlx.
    + apply Forall_app. split; [exact Ha|repeat constructor; exact Hax].
Qed.

(** X19.  In every state the events lead to — interruptions, stops
    and restarts included — the cursor is not negative, every source
    in the set ends at or before the cursor, and each source starts no
    earlier than every source added before it ends: the sources of the
    set never overlap. *)
Theorem schedule_stays_ordered events m :
  scheduleOrdered m -> scheduleOrdered (snd (run events m)).
Proof.
  apply run_keeps. clear events m. intros e m [Hpos [Hend Hsorted]].
  unfold scheduleOrdered.
  destruct (after_playback e m) as [Hc Hs Hf|Hc Hs|now buffer s Hc Hs Hf].
  - rewrite Hc, Hs. repeat split; assumption.
  - rewrite Hc, Hs. split; [apply Qle_refl|]. split; constructor.
  - rewrite Hc, Hs.
    assert (Hcur : (nextStartTimeRef (refs m) <= node_when s)%Q)
      by apply Q.le_max_l.
    assert (Hdur : (node_when s <= node_when s + duration buffer)%Q).
    { rewrite <- Qplus_0_r at 1. apply Qplus_le_r, duration_nonneg. }
    split; [|split].
    + eapply Qle_trans; [exact Hpos|]. eapply Qle_trans; eassumption.
    + apply Forall_app. split.
      * eapply Forall_impl; [|exact Hend]. cbn. intros a Ha.
        eapply Qle_trans; [exact Ha|]. eapply Qle_trans; eassumption.
      * repeat constructor. apply Qle_refl.
    + apply sorted_snoc; [exact Hsorted|].
      eapply Forall_impl; [|exact Hend]. cbn. intros a Ha.
      assert (Ha' : (node_when a + duration (node_buffer a)
                     <= node_when s)%Q)
        by (eapply Qle_trans; eassumption).
      split; [exact Ha'|].
      eapply Qle_trans; [|exact Ha'].
      rewrite <- Qplus_0_r at 1. apply Qplus_le_r, duration_nonneg.
Qed.

Lemma firstn_incl {A : Type} n (l : list A) x :
  In x (firstn n l) -> In x l.
Proof.
  revert l. induction n as [|n IH]; intros [|a l]; cbn; intros H;
    try contradiction.
  destruct H as [->|H]; [now left|right; now apply IH].
Qed.

(** X20.  [reader.onload] writes the history of the render in which
    the file was chosen.  An artifact that a creative action added
    after that render — it is the newest entry when the read ends —
    is no longer in the history once the read has ended: the upload
    is in front of the entries the render saw, and the artifact is
    lost. *)
Theorem upload_loses_what_was_added_since r ts resp d result ts' m :
  firstImage resp = Some d ->
  ~ In (artifact d ts) (ImageState.history (imageState (react m))) ->
  artifact d ts <> uploaded result ts' ->
  exists m1 m2,
    generateImage_settle r ts resp m = (Normal tt, m1) /\
    nth_error (ImageState.history (imageState (react m1))) 0
    = Some (artifact d ts) /\
    handleImageUpload (react m) (Some result) ts' m1 = (Normal tt, m2) /\
    nth_error (ImageState.history (imageState (react m2))) 0
    = Some (uploaded result ts') /\
    ~ In (artifact d ts) (ImageState.history (imageState (react m2))).
Proof.
  intros Hd Hnew Hneq. rewrite generateImage_settle_runs.
  exists (settled "生成失败:" r ts resp m). eexists.
  split; [reflexivity|].
  split; [now rewrite settled_history, Hd|].
  split; [reflexivity|].
  destruct (settled "生成失败:" r ts resp m)
    as [[st img live txt] rf [f t]].
  machine_norm. split; [reflexivity|].
  intros Hin. apply firstn_incl in Hin. destruct Hin as [Heq|Hin].
  - apply Hneq. now symmetry.
  - now apply Hnew.
Qed.

Lemma stopEffects_flags x : flat_map callbacksFlag (stopEffects x) = [].
Proof.
  unfold stopEffects, closing. rewrite !flat_map_app.
  destruct (streamRef x), (audioContextRef x) as [[i o]|], (sessionRef x);
    cbn [input output];
    try destruct (ctx_state i); try destruct (ctx_state o);
    rewrite ?(flat_map_map_nil callbacksFlag) by reflexivity; reflexivity.
Qed.

Lemma handled_flags r sid now msg m :
  flat_map callbacksFlag (added m (handled r sid now msg m)) = [].
Proof.
  rewrite handled_added, !flat_map_app.
  rewrite (flat_map_map_nil callbacksFlag) by reflexivity.
  rewrite (flat_map_flat_map_nil callbacksFlag).
  - destruct (isInterrupted msg), (sessionRef (refs m));
      rewrite ?(flat_map_map_nil callbacksFlag) by reflexivity; reflexivity.
  - intros fc. unfold requestOf.
    destruct (name fc =? "generateImage"); [reflexivity|].
    destruct ((name fc =? "editImage") || (name fc =? "posterLayout"));
      [|reflexivity].
    now destruct (truthy (ImageState.base64 (imageState r))).
Qed.

Lemma after_flags e m :
  flat_map callbacksFlag (trace (world (after e m)))
  = (flat_map callbacksFlag (trace (world m))
     ++ match e with
        | Click (Granted _) =>
            if isLiveActive (react m) then [] else [false]
        | _ => []
        end)%list.
Proof.
  destruct e as [[stream|reason]|sid|sid now msg|sid|sid|r ts resp
                |r ts resp|r [result|] ts|item]; cbn [after].
  - destruct (isLiveActive (react m)) eqn:E.
    + unfold stopped. cbn [world trace].
      now rewrite flat_map_app, stopEffects_flags.
    + unfold started. cbn [world trace]. rewrite flat_map_app. cbn.
      now rewrite E.
  - destruct (isLiveActive (react m)) eqn:E.
    + unfold stopped. cbn [world trace].
      now rewrite flat_map_app, stopEffects_flags.
    + unfold refused. cbn [world trace]. rewrite flat_map_app. cbn.
      now rewrite app_nil_r.
  - destruct m as [[st img live txt] rf [f t]]. machine_norm.
    now rewrite flat_map_app.
  - destruct (callbacksOf (trace (world m)) sid) as [r|];
      [|now rewrite app_nil_r].
    now rewrite handled_trace, flat_map_app, handled_flags.
  - destruct m as [[st img live txt] rf [f t]]. unfold stopped.
    machine_norm. rewrite !flat_map_app, stopEffects_flags. cbn.
    now rewrite ?app_nil_r.
  - unfold stopped. cbn [world trace].
    now rewrite flat_map_app, stopEffects_flags.
  - destruct m as [[st img live txt] rf [f t]]. unfold settled, adopted.
    destruct (firstImage resp); [|destruct (threw resp)]; machine_norm;
      rewrite ?flat_map_app; cbn; now rewrite ?app_nil_r.
  - destruct m as [[st img live txt] rf [f t]]. unfold settled, adopted.
    destruct (firstImage resp); [|destruct (threw resp)]; machine_norm;
      rewrite ?flat_map_app; cbn; now rewrite ?app_nil_r.
  - destruct m as [[st img live txt] rf [f t]]. machine_norm.
    now rewrite app_nil_r.
  - now rewrite app_nil_r.
  - destruct m as [[st img live txt] rf [f t]]. machine_norm.
    now rewrite app_nil_r.
Qed.

Lemma callbacksOf_flag t sid r :
  callbacksOf t sid = Some r ->
  In (isLiveActive r) (flat_map callbacksFlag t).
Proof.
  induction t as [|e t IH]; [discriminate|].
  cbn [flat_map]. intros H. apply in_or_app.
  destruct e; cbn [callbacksOf] in H; try (right; now apply IH).
  destruct (Nat.eqb sid0 sid); [|right; now apply IH].
  injection H as ->. left. now left.
Qed.

(** X21.  From the mounted component on, whatever the events, the
    callbacks of every connected session belong to a render whose
    [isLiveActive] is [false]: [startVoiceSession] connects only past
    its guard.  A creative action started by a tool call of a session
    therefore settles with status [IDLE], whatever the response, also
    while that session is open and active. *)
Theorem session_callbacks_hold_a_clear_flag events sid r :
  callbacksOf (trace (world (snd (run events initialMachine)))) sid
  = Some r ->
  isLiveActive r = false /\
  forall ts resp m,
    status (react (snd (generateImage_settle r ts resp m))) = IDLE /\
    status (react (snd (editImage_settle r ts resp m))) = IDLE.
Proof.
  assert (Hinv : Forall (eq false)
                   (flat_map callbacksFlag
                      (trace (world (snd (run events initialMachine)))))).
  { apply (run_keeps
             (fun m => Forall (eq false)
                         (flat_map callbacksFlag (trace (world m))))).
    - intros e m H. rewrite after_flags. apply Forall_app.
      split; [exact H|].
      destruct e as [[stream|reason]| | | | | | | |]; try constructor.
      destruct (isLiveActive (react m)); repeat constructor.
    - constructor. }
  intros Hcb. apply callbacksOf_flag in Hcb.
  rewrite Forall_forall in Hinv.
  pose proof (Hinv _ Hcb) as Hflag. symmetry in Hflag.
  split; [exact Hflag|]. intros ts resp m.
  rewrite generateImage_settle_runs, editImage_settle_runs.
  cbn [snd]. unfold settled. rewrite Hflag.
  destruct m as [[st img live txt] rf [f t]].
  destruct (firstImage resp); [|destruct (threw resp)]; now machine_norm.
Qed.

End App.

(** ** Concrete runs *)

Example start_then_open :
  snd (onopen 2
         (snd (startVoiceSession neverRaises neverRaises initialRender
                 (Granted sampleStream) initialMachine)))
  = liveMachine.
Proof. reflexivity. Qed.


(** A [posterLayout] call whose [textContent] is the empty string: the
    prompt goes to [editImage] alone. *)
Lemma posterLayout_with_empty_text :
  textContent (args emptyPosterCall) = Some "" /\
  editPrompt (args emptyPosterCall) = "grid" /\
  editPrompt (args emptyPosterCall)
  <> prompt (args emptyPosterCall) ++ ". Text to add: " ++ "" /\
  dispatch (paintedRender 1) emptyPosterCall
  = (editImage_request (paintedRender 1) "grid" ;; ret tt).
Proof.
  split; [reflexivity|]. split; [reflexivity|].
  split; [discriminate|reflexivity].
Qed.

(** A generation whose response holds text and no image: the call
    fails (no image, nothing changes) and the console stays silent. *)
Lemma missing_image_is_not_logged :
  let m := liveMachine in
  let m' := snd (generateImage initialRender "neon skyline" "10:00:00"
                   textOnly m) in
  firstImage textOnly = None /\
  imageState (react m') = imageState (react m) /\
  flat_map consoleError (added m m') = [].
Proof. repeat split. Qed.

(** The callbacks of a session belong to the render that started it,
    where [isLiveActive] is [false]: after a tool call of the live
    session has run that render's [generateImage], the status is
    [IDLE] although the session is active. *)
Example status_after_generation_in_live_session :
  let r := initialRender in
  let m1 := snd (deliver sampleFrames neverRaises 2 0%Q
                   (toolMessage [generateCall]) liveMachine) in
  let m2 := snd (generateImage_settle r "10:00:00" (oneImage "QUJD") m1) in
  callbacksOf (trace (world liveMachine)) 2 = Some r /\
  status (react m1) = GENERATING /\
  isLiveActive (react m2) = true /\
  status (react m2) = IDLE.
Proof. repeat split. Qed.

(** Two clicks before the first session has opened: the second
    [startVoiceSession] runs in a render whose [isLiveActive] is still
    [false] and connects a second session while the first stays
    open. *)
Lemma second_start_while_connecting :
  let m1 := snd (startVoiceSession neverRaises neverRaises initialRender
                   (Granted sampleStream) initialMachine) in
  let m2 := snd (startVoiceSession neverRaises neverRaises (react m1)
                   (Granted sampleStream) m1) in
  status (react m1) = VOICE_CONNECTING /\
  isLiveActive (react m1) = false /\
  openSessions (trace (world m1)) = [2] /\
  openSessions (trace (world m2)) = [2; 5] /\
  ~ (List.length (openSessions (trace (world m2))) <= 1)%nat.
Proof.
  split; [reflexivity|]. split; [reflexivity|]. split; [reflexivity|].
  split; [reflexivity|]. cbn. lia.
Qed.


Example playback_of_three_chunks :
  map (fun s => (node_when s, duration (node_buffer s)))
    (sourcesRef (refs (snd (onmessages sampleFrames neverRaises
                              initialRender 2 sampleInbound liveMachine))))
  = [(0%Q, (9600 # 24000)%Q);
     ((0 + (9600 # 24000))%Q, (4800 # 24000)%Q);
     (2%Q, (2400 # 24000)%Q)].
Proof. reflexivity. Qed.


Example interruption_stops_three_sources :
  flat_map sourceStop
    (added playingMachine
       (snd (onmessage sampleFrames evenRaises initialRender 2 (1 # 2)%Q
               (audioMessage "abcd" true) playingMachine)))
  = [3; 4; 5].
Proof. reflexivity. Qed.

(** An unknown call on the live session, alone in its message. *)
Lemma unknown_tool_is_only_acknowledged_witness :
  sessionRef (refs liveMachine) <> None /\
  exists m',
    onmessage sampleFrames neverRaises initialRender 2 0%Q
      (toolMessage [unknownCall]) liveMachine = (Normal tt, m') /\
    flat_map toolResponse (added liveMachine m')
    = [(2, "call-4", "zoomImage", "ok")] /\
    imageState (react m') = imageState (react liveMachine) /\
    status (react m') = status (react liveMachine) /\
    flat_map request (added liveMachine m') = [].
Proof.
  split; [discriminate|].
  destruct (unknown_tool_is_only_acknowledged sampleFrames neverRaises
              initialRender 2 0%Q (toolMessage [unknownCall]) liveMachine)
    as (m' & m'' & Hrun & _ & Hacks & Himg & _ & _ & _ & Hnone);
    [discriminate|].
  exists m'. split; [exact Hrun|]. split; [exact Hacks|].
  split; [exact Himg|]. apply Hnone.
  repeat constructor; discriminate.
Defined.

(** An unknown call between two known ones: each of the three is
    answered, and the requests are those of the two known calls. *)
Example unknown_call_among_known_ones :
  let m := liveMachine in
  let msg := toolMessage [generateCall; unknownCall; posterCall] in
  let m' := snd (onmessage sampleFrames neverRaises initialRender 2 0%Q
                   msg m) in
  functionCalls (withoutUnknown msg) = [generateCall; posterCall] /\
  added m m'
  = [GenerateContent None "High quality, aesthetic, neon skyline";
     SendToolResponse 2 "call-1" "generateImage" "ok";
     SendToolResponse 2 "call-4" "zoomImage" "ok";
     SendToolResponse 2 "call-2" "posterLayout" "ok"] /\
  status (react m') = GENERATING.
Proof. repeat split. Qed.

Lemma dispatch_rule_witness :
  (name generateCall = "generateImage" /\
   dispatch initialRender generateCall
   = generateImage_request "neon skyline") /\
  (name posterCall = "posterLayout" /\
   dispatch (paintedRender 1) posterCall
   = (editImage_request (paintedRender 1) (editPrompt (args posterCall)) ;;
      ret tt)) /\
  (textContent (args posterCall) = Some "SALE" /\
   editPrompt (args posterCall) = "grid. Text to add: SALE").
Proof.
  split; [split; [reflexivity|]|split; [split; [reflexivity|]|split]].
  - apply (dispatch_rule initialRender generateCall). reflexivity.
  - apply (dispatch_rule (paintedRender 1) posterCall). right. reflexivity.
  - reflexivity.
  - apply (proj1 (proj2 (proj2 (dispatch_rule (paintedRender 1) posterCall)))
             "SALE"); [reflexivity|discriminate].
Defined.

Lemma failed_action_restores_status_witness :
  (firstImage (Rejected "503") = None /\
   exists m',
     generateImage (react liveMachine) "neon skyline" "10:00:00"
       (Rejected "503") liveMachine = (Normal tt, m') /\
     imageState (react m') = imageState (react liveMachine) /\
     status (react m') = VOICE_ACTIVE /\
     flat_map consoleError (added liveMachine m') = ["生成失败:"]) /\
  (truthy (ImageState.base64 (imageState (paintedRender 1))) = true /\
   firstImage textOnly = None /\
   exists m',
     editImage (paintedRender 1) "warmer" "10:00:00" textOnly
       (paintedMachine 1) = (Normal tt, m') /\
     imageState (react m') = imageState (react (paintedMachine 1)) /\
     status (react m') = IDLE /\
     flat_map consoleError (added (paintedMachine 1) m') = []).
Proof.
  split.
  - split; [reflexivity|].
    apply (proj1 failed_action_restores_status (react liveMachine)
             "neon skyline" "10:00:00" (Rejected "503") liveMachine).
    reflexivity.
  - split; [reflexivity|]. split; [reflexivity|].
    apply (proj2 failed_action_restores_status (paintedRender 1) "warmer"
             "10:00:00" textOnly (paintedMachine 1)); reflexivity.
Defined.

Lemma edit_without_artifact_is_noop_witness :
  truthy (ImageState.base64 (imageState initialRender)) = false /\
  editImage_request initialRender "warmer" liveMachine
  = (Normal false, liveMachine) /\
  editImage initialRender "warmer" "10:00:00" (oneImage "QUJD") liveMachine
  = (Normal tt, liveMachine).
Proof.
  split; [reflexivity|].
  apply (edit_without_artifact_is_noop initialRender "warmer" "10:00:00"
           (oneImage "QUJD") liveMachine).
  reflexivity.
Defined.

Lemma history_keeps_ten_newest_first_witness :
  (firstImage (oneImage "QUJD") = Some (mkInlineData (Some "QUJD")) /\
   exists m',
     generateImage (paintedRender 10) "neon skyline" "10:00:00"
       (oneImage "QUJD") (paintedMachine 10) = (Normal tt, m') /\
     recorded (artifact (mkInlineData (Some "QUJD")) "10:00:00")
       (ImageState.history (imageState (react (paintedMachine 10))))
       (ImageState.history (imageState (react m')))) /\
  (truthy (ImageState.base64 (imageState (paintedRender 10))) = true /\
   exists m',
     editImage (paintedRender 10) "warmer" "10:00:00" (oneImage "QUJD")
       (paintedMachine 10) = (Normal tt, m') /\
     recorded (artifact (mkInlineData (Some "QUJD")) "10:00:00")
       (ImageState.history (imageState (react (paintedMachine 10))))
       (ImageState.history (imageState (react m')))) /\
  (imageState (paintedRender 10) = imageState (react (paintedMachine 10)) /\
   exists m',
     handleImageUpload (paintedRender 10)
       (Some "data:image/png;base64,REVG") "10:00:05" (paintedMachine 10)
     = (Normal tt, m') /\
     recorded (uploaded "data:image/png;base64,REVG" "10:00:05")
       (ImageState.history (imageState (react (paintedMachine 10))))
       (ImageState.history (imageState (react m')))).
Proof.
  split; [|split].
  - split; [reflexivity|].
    apply (proj1 history_keeps_ten_newest_first (paintedRender 10)
             "neon skyline" "10:00:00" (oneImage "QUJD") (paintedMachine 10)).
    reflexivity.
  - split; [reflexivity|].
    apply (proj1 (proj2 history_keeps_ten_newest_first) (paintedRender 10)
             "warmer" "10:00:00" (oneImage "QUJD") (paintedMachine 10));
      reflexivity.
  - split; [reflexivity|].
    apply (proj2 (proj2 history_keeps_ten_newest_first) (paintedRender 10)
             "data:image/png;base64,REVG" "10:00:05" (paintedMachine 10)).
    reflexivity.
Defined.

Example eleventh_artifact_evicts_the_oldest :
  map HistoryItem.base64
    (ImageState.history
       (imageState
          (react (snd (generateImage (paintedRender 10) "neon skyline"
                         "10:00:00" (oneImage "QUJD") (paintedMachine 10))))))
  = [Some "QUJD"; Some "A"; Some "B"; Some "C"; Some "D"; Some "E";
     Some "F"; Some "G"; Some "H"; Some "I"].
Proof. reflexivity. Qed.

(** C5.  An upload does not always leave the ten most recent
    artifacts.  A file is chosen while the history holds A to J;
    before it has been read, a generation settles and puts QUJD in
    front (J, the oldest, is dropped).  When the read ends,
    [reader.onload] builds the history from the one its render saw:
    the upload REVG is followed by A to I, and QUJD — the most recent
    artifact but one — is gone, while I, which should have been
    evicted, is kept.  [generateImage] and [editImage] build the
    history from [prev] and lose nothing. *)
Theorem upload_drops_the_newer_entry :
  let m0 := paintedMachine 10 in
  let chosen := react m0 in
  let m1 := snd (run sampleFrames neverRaises neverRaises
                   [GenerateSettled chosen "10:00:00" (oneImage "QUJD")]
                   m0) in
  let m2 := snd (run sampleFrames neverRaises neverRaises
                   [FileRead chosen (Some "data:image/png;base64,REVG")
                      "10:00:05"]
                   m1) in
  let shown m :=
    map HistoryItem.base64 (ImageState.history (imageState (react m))) in
  shown m0
  = [Some "A"; Some "B"; Some "C"; Some "D"; Some "E"; Some "F"; Some "G";
     Some "H"; Some "I"; Some "J"] /\
  shown m1
  = [Some "QUJD"; Some "A"; Some "B"; Some "C"; Some "D"; Some "E";
     Some "F"; Some "G"; Some "H"; Some "I"] /\
  shown m2
  = [Some "REVG"; Some "A"; Some "B"; Some "C"; Some "D"; Some "E";
     Some "F"; Some "G"; Some "H"; Some "I"] /\
  shown m2
  <> [Some "REVG"; Some "QUJD"; Some "A"; Some "B"; Some "C"; Some "D";
      Some "E"; Some "F"; Some "G"; Some "H"].
Proof.
  split; [reflexivity|]. split; [reflexivity|]. split; [reflexivity|].
  discriminate.
Qed.

Lemma start_while_active_stops_witness :
  isLiveActive (react liveMachine) = true /\
  startVoiceSession evenRaises neverRaises (react liveMachine)
    (Granted sampleStream) playingMachine
  = stopVoiceSession evenRaises neverRaises playingMachine /\
  exists m',
    startVoiceSession evenRaises neverRaises (react liveMachine)
      (Granted sampleStream) playingMachine = (Normal tt, m') /\
    sessionRef (refs m') = None /\
    flat_map connect (added playingMachine m') = [] /\
    (forall sid, sessionRef (refs playingMachine) = Some sid ->
                 In (SessionClose sid) (added playingMachine m')) /\
    (List.length (openSessions (trace (world m')))
     <= List.length (openSessions (trace (world playingMachine))))%nat.
Proof.
  split; [reflexivity|].
  apply (start_while_active_stops evenRaises neverRaises
           (react liveMachine) (Granted sampleStream) playingMachine).
  reflexivity.
Defined.

Example toggle_closes_the_session :
  openSessions
    (trace (world (snd (startVoiceSession evenRaises neverRaises
                          (react liveMachine) (Granted sampleStream)
                          playingMachine))))
  = [].
Proof. reflexivity. Qed.

(** ** Concrete runs of the whole component *)

Lemma start_connects_or_rejects_witness :
  isLiveActive initialRender = false /\
  (exists m',
     startVoiceSession neverRaises neverRaises initialRender
       (Granted sampleStream) initialMachine = (Normal tt, m') /\
     status (react m') = VOICE_CONNECTING /\
     sessionRef (refs m') = Some 2 /\
     added initialMachine m'
     = [NewAudioContext 0 16000; NewAudioContext 1 24000;
        LiveConnect 2 initialRender] /\
     openSessions (trace (world m')) = [2]) /\
  (exists m',
     startVoiceSession neverRaises neverRaises initialRender
       (Denied "NotAllowedError") initialMachine
     = (Throw "NotAllowedError", m') /\
     status (react m') = VOICE_CONNECTING /\
     sessionRef (refs m') = None /\
     streamRef (refs m') = None /\
     added initialMachine m'
     = [NewAudioContext 0 16000; NewAudioContext 1 24000] /\
     openSessions (trace (world m')) = []).
Proof.
  split; [reflexivity|].
  destruct (start_connects_or_rejects neverRaises neverRaises
              initialRender initialMachine eq_refl) as [Hgranted Hdenied].
  split.
  - destruct (Hgranted sampleStream)
      as (m' & Hrun & Hst & _ & _ & _ & _ & _ & _ & Hsess & Hadd & Hopen).
    exists m'. repeat (split; [assumption|]). assumption.
  - destruct (Hdenied "NotAllowedError")
      as (m' & Hrun & Hst & _ & _ & _ & _ & Hstream & _ & Hsess & Hadd
          & Hopen).
    exists m'. repeat (split; [assumption|]). assumption.
Defined.

(** After a rejected [getUserMedia] the component shows
    [VOICE_CONNECTING] with no session; the next click starts one. *)
Example click_after_rejection_connects :
  let '(completions, m) :=
    run sampleFrames neverRaises neverRaises
      [Click (Denied "NotAllowedError"); Click (Granted sampleStream);
       SessionOpened 4]
      initialMachine in
  completions = [Throw "NotAllowedError"; Normal tt; Normal tt] /\
  status (react m) = VOICE_ACTIVE /\
  sessionRef (refs m) = Some 4 /\
  openSessions (trace (world m)) = [4].
Proof. repeat split. Qed.

(** A second click while session 2 is connecting, followed by a stop:
    session 2 is still open. *)
Lemma replaced_session_survives_stop_witness :
  let m := snd (startVoiceSession neverRaises neverRaises initialRender
                  (Granted sampleStream) initialMachine) in
  isLiveActive (react m) = false /\
  (2 < fresh (world m))%nat /\
  In 2 (openSessions (trace (world m))) /\
  exists m1 m2,
    startVoiceSession neverRaises neverRaises (react m)
      (Granted sampleStream) m = (Normal tt, m1) /\
    stopVoiceSession neverRaises neverRaises m1 = (Normal tt, m2) /\
    sessionRef (refs m1) <> Some 2 /\
    flat_map sessionClose (added m m2) = [S (S (fresh (world m)))] /\
    sessionRef (refs m2) = None /\
    In 2 (openSessions (trace (world m2))).
Proof.
  cbv zeta. split; [reflexivity|]. split; [cbn; lia|].
  split; [now left|].
  apply (replaced_session_survives_stop neverRaises neverRaises);
    [reflexivity|cbn; lia|now left].
Defined.

Lemma toggle_releases_what_start_acquired_witness :
  isLiveActive initialRender = false /\
  exists m1 m2 m3,
    startVoiceSession evenRaises neverRaises initialRender
      (Granted sampleStream) initialMachine = (Normal tt, m1) /\
    onopen 2 m1 = (Normal tt, m2) /\
    startVoiceSession evenRaises neverRaises (react m2)
      (Denied "NotAllowedError") m2 = (Normal tt, m3) /\
    voiceState m3 = voiceState initialMachine /\
    added initialMachine m3
    = [NewAudioContext 0 16000; NewAudioContext 1 24000;
       LiveConnect 2 initialRender; CaptureWired 2; TrackStop 7;
       ContextClose 0; ContextClose 1; SessionClose 2].
Proof.
  split; [reflexivity|].
  destruct (toggle_releases_what_start_acquired evenRaises neverRaises
              initialRender sampleStream (Denied "NotAllowedError")
              initialMachine eq_refl)
    as (m1 & m2 & m3 & H1 & H2 & _ & _ & H3 & H4 & _ & H5).
  exists m1, m2, m3. repeat (split; [assumption|]). exact H5.
Defined.

Lemma cursor_never_moves_back_witness :
  let inbound := [(1 # 2, audioMessage "abcd" false);
                  (0, toolMessage [generateCall]);
                  (1 # 4, audioMessage "ef" false)]%Q in
  Forall (fun x => isInterrupted (snd x) = false) inbound /\
  exists m' nodes,
    onmessages sampleFrames evenRaises initialRender 2 inbound
      playingMachine = (Normal tt, m') /\
    (nextStartTimeRef (refs playingMachine)
     <= nextStartTimeRef (refs m'))%Q /\
    sourcesRef (refs m') = (sourcesRef (refs playingMachine) ++ nodes)%list.
Proof.
  cbv zeta. split; [repeat constructor|].
  apply (cursor_never_moves_back sampleFrames evenRaises).
  repeat constructor.
Defined.

(** A chunk that arrives at 1/2 while the cursor stands at 3/5 starts
    at the cursor. *)
Lemma chunk_starts_at_clock_or_cursor_witness :
  audioContextRef (refs playingMachine) <> None /\
  exists m' s,
    onmessage sampleFrames evenRaises initialRender 2 (1 # 2)%Q
      (audioMessage "abcd" false) playingMachine = (Normal tt, m') /\
    sourcesRef (refs m') = (sourcesRef (refs playingMachine) ++ [s])%list /\
    (node_when s == 3 # 5)%Q.
Proof.
  split; [discriminate|].
  destruct (chunk_starts_at_clock_or_cursor sampleFrames evenRaises
              initialRender 2 (1 # 2)%Q (audioMessage "abcd" false)
              playingMachine)
    as (m' & s & Hrun & Hsrc & _ & _ & _ & _ & Hcursor);
    [discriminate|reflexivity|reflexivity|].
  exists m', s. split; [exact Hrun|]. split; [exact Hsrc|].
  apply Hcursor. cbn. unfold Qle. cbn. lia.
Defined.

Lemma chunk_after_interruption_starts_at_clock_witness :
  (0 <= 7 # 10)%Q /\
  exists m1 m2 s,
    onmessage sampleFrames evenRaises initialRender 2 (1 # 2)%Q
      (audioMessage "abcd" true) playingMachine = (Normal tt, m1) /\
    onmessage sampleFrames evenRaises initialRender 2 (7 # 10)%Q
      (audioMessage "ef" false) m1 = (Normal tt, m2) /\
    sourcesRef (refs m2) = [s] /\
    (node_when s == 7 # 10)%Q /\
    (nextStartTimeRef (refs m2) == (7 # 10) + duration (node_buffer s))%Q.
Proof.
  split; [unfold Qle; cbn; lia|].
  apply (chunk_after_interruption_starts_at_clock sampleFrames evenRaises
           initialRender 2 (1 # 2)%Q (audioMessage "abcd" true)
           (7 # 10)%Q (audioMessage "ef" false) playingMachine);
    [reflexivity|discriminate|reflexivity|reflexivity|].
  unfold Qle. cbn. lia.
Defined.

Lemma late_messages_only_start_actions_witness :
  let m := snd (stopVoiceSession evenRaises neverRaises playingMachine) in
  let inbound := [(1 # 2, audioMessage "abcd" false);
                  (1, toolMessage [generateCall; unknownCall]);
                  (2, audioMessage "ef" true)]%Q in
  refs m = initialRefs /\
  exists m',
    onmessages sampleFrames evenRaises initialRender 2 inbound m
    = (Normal tt, m') /\
    refs m' = initialRefs /\
    fresh (world m') = fresh (world m) /\
    Forall isRequest (added m m').
Proof.
  cbv zeta. split; [reflexivity|].
  apply (late_messages_only_start_actions sampleFrames evenRaises).
  reflexivity.
Defined.

Lemma successful_action_shows_the_image_witness :
  (firstImage (oneImage "QUJD") = Some (mkInlineData (Some "QUJD")) /\
   exists m',
     generateImage (react liveMachine) "neon skyline" "10:00:00"
       (oneImage "QUJD") liveMachine = (Normal tt, m') /\
     ImageState.url (imageState (react m'))
     = Some "data:image/png;base64,QUJD" /\
     ImageState.base64 (imageState (react m')) = Some "QUJD" /\
     status (react m') = VOICE_ACTIVE) /\
  (truthy (ImageState.base64 (imageState (paintedRender 2))) = true /\
   exists m',
     editImage (paintedRender 2) "warmer" "10:00:00" (oneImage "QUJD")
       (paintedMachine 2) = (Normal tt, m') /\
     ImageState.base64 (imageState (react m')) = Some "QUJD" /\
     added (paintedMachine 2) m'
     = [GenerateContent (Some "A")
          "Modify the image based on this: warmer"]).
Proof.
  split; (split; [reflexivity|]).
  - destruct (proj1 successful_action_shows_the_image (react liveMachine)
                "neon skyline" "10:00:00" (oneImage "QUJD") liveMachine
                (mkInlineData (Some "QUJD")) eq_refl)
      as (m' & Hrun & Hurl & Hbase & _ & Hst & _).
    exists m'. repeat (split; [assumption|]). exact Hst.
  - destruct (proj2 successful_action_shows_the_image (paintedRender 2)
                "warmer" "10:00:00" (oneImage "QUJD") (paintedMachine 2)
                (mkInlineData (Some "QUJD")) eq_refl eq_refl)
      as (m' & Hrun & _ & Hbase & _ & _ & Hadd).
    exists m'. repeat (split; [assumption|]). exact Hadd.
Defined.

(** The image sits in the second candidate: nothing is adopted. *)
Lemma only_the_first_image_counts_witness :
  let image := mkPart (Some (mkInlineData (Some "QUJD"))) None in
  let other := mkPart (Some (mkInlineData (Some "REVG"))) None in
  (inlineData image <> None /\
   generateImage_settle initialRender "10:00:00"
     (Resolved [mkContent ([mkPart None (Some "one")] ++ image :: [other])])
   = generateImage_settle initialRender "10:00:00"
       (Resolved [mkContent ([mkPart None (Some "one")] ++ [image])])) /\
  (firstInline (parts (mkContent [mkPart None (Some "one")])) = None /\
   exists m',
     generateImage_settle initialRender "10:00:00"
       (Resolved [mkContent [mkPart None (Some "one")]; mkContent [image]])
       liveMachine = (Normal tt, m') /\
     imageState (react m') = imageState (react liveMachine) /\
     added liveMachine m' = []).
Proof.
  cbv zeta. split.
  - split; [discriminate|].
    apply (proj1 (proj2 (only_the_first_image_counts initialRender
                           "10:00:00"))).
    discriminate.
  - split; [reflexivity|].
    apply (proj2 (proj2 (only_the_first_image_counts initialRender
                           "10:00:00"))).
    reflexivity.
Defined.

(** The live session was started by a render without an image: after
    an image has been generated, a poster call still sends nothing. *)
Lemma actions_read_the_render_that_started_the_session_witness :
  let m := snd (generateImage initialRender "neon skyline" "10:00:00"
                  (oneImage "QUJD") liveMachine) in
  let msg := toolMessage [posterCall; generateCall] in
  callbacksOf (trace (world m)) 2 = Some initialRender /\
  truthy (ImageState.base64 (imageState (react m))) = true /\
  exists m',
    deliver sampleFrames neverRaises 2 0%Q msg m = (Normal tt, m') /\
    flat_map request (added m m')
    = [(None, "High quality, aesthetic, neon skyline")].
Proof.
  cbv zeta. split; [reflexivity|]. split; [reflexivity|].
  destruct (actions_read_the_render_that_started_the_session sampleFrames
              neverRaises 2 0%Q (toolMessage [posterCall; generateCall])
              initialRender
              (snd (generateImage initialRender "neon skyline" "10:00:00"
                      (oneImage "QUJD") liveMachine)) eq_refl)
    as (m' & Hrun & Hreq).
  exists m'. split; [exact Hrun|]. exact Hreq.
Defined.

Lemma declared_tools_are_the_dispatched_witness :
  (In (name posterCall) (map decl_name tools) /\
   (dispatch initialRender posterCall
    = generateImage_request (prompt (args posterCall)) \/
    dispatch initialRender posterCall
    = (editImage_request initialRender (editPrompt (args posterCall)) ;;
       ret tt))) /\
  (~ In (name unknownCall) (map decl_name tools) /\
   dispatch initialRender unknownCall = ret tt).
Proof.
  split.
  - split; [cbn; tauto|].
    apply (proj1 (declared_tools_are_the_dispatched initialRender
                    posterCall)).
    cbn. tauto.
  - assert (H : ~ In (name unknownCall) (map decl_name tools))
      by (cbn; intros [H|[H|[H|[]]]]; discriminate).
    split; [exact H|].
    apply (proj1 (proj2 (declared_tools_are_the_dispatched initialRender
                           unknownCall))), H.
Defined.

Lemma picked_item_becomes_current_witness :
  truthy (HistoryItem.base64 (entry 1)) = true /\
  exists m1 m2,
    selectFromHistory (entry 1) (paintedMachine 3) = (Normal tt, m1) /\
    ImageState.base64 (imageState (react m1)) = Some "B" /\
    ImageState.history (imageState (react m1))
    = ImageState.history (imageState (react (paintedMachine 3))) /\
    editImage_request (react m1) "warmer" m1 = (Normal true, m2) /\
    added m1 m2
    = [GenerateContent (Some "B") "Modify the image based on this: warmer"].
Proof.
  split; [reflexivity|].
  destruct (picked_item_becomes_current (entry 1) "warmer"
              (paintedMachine 3))
    as (m1 & Hrun & Himg & _ & _ & _ & _ & Hedit).
  destruct (Hedit eq_refl) as (m2 & Hreq & _ & Hadd).
  exists m1, m2. split; [exact Hrun|].
  split; [now rewrite Himg|]. split; [now rewrite Himg|].
  split; [exact Hreq|exact Hadd].
Defined.

Lemma upload_keeps_the_payload_witness :
  (occurs "," "data:image/png;base64" = false /\
   occurs "," "QUJD" = false /\
   exists m',
     handleImageUpload (paintedRender 2) (Some "data:image/png;base64,QUJD")
       "10:00:00" (paintedMachine 2) = (Normal tt, m') /\
     ImageState.base64 (imageState (react m')) = Some "QUJD") /\
  (occurs "," "data:" = false /\
   exists m',
     handleImageUpload (paintedRender 2) (Some "data:") "10:00:00"
       (paintedMachine 2) = (Normal tt, m') /\
     ImageState.base64 (imageState (react m')) = None /\
     editImage_request (react m') "warmer" m' = (Normal false, m')).
Proof.
  split.
  - split; [reflexivity|]. split; [reflexivity|].
    destruct (proj1 (upload_keeps_the_payload (paintedRender 2) "10:00:00"
                       (paintedMachine 2))
                "data:image/png;base64" "QUJD" eq_refl eq_refl)
      as (m' & Hrun & _ & Hbase & _).
    exists m'. split; [exact Hrun|exact Hbase].
  - split; [reflexivity|].
    destruct (proj1 (proj2 (upload_keeps_the_payload (paintedRender 2)
                              "10:00:00" (paintedMachine 2)))
                "data:" "warmer" eq_refl)
      as (m' & Hrun & _ & Hbase & Hedit).
    exists m'. split; [exact Hrun|]. split; [exact Hbase|exact Hedit].
Defined.

(** A rejected click, then a session from the next click to a remote
    close, with a tool call, its settlement, a file and a pick on the
    way. *)
Lemma history_stays_bounded_witness :
  let events :=
    [Click (Denied "NotAllowedError");
     Click (Granted sampleStream); SessionOpened 4;
     Inbound 4 0%Q (toolMessage [generateCall]);
     GenerateSettled initialRender "10:00:00" (Rejected "503");
     FileRead (paintedRender 10) (Some "data:image/png;base64,REVG")
       "10:00:05";
     Picked (entry 3);
     Inbound 4 1%Q (audioMessage "abcd" false);
     SessionClosed 4] in
  historyBounded (paintedMachine 10) /\
  historyBounded
    (snd (run sampleFrames evenRaises neverRaises events
            (paintedMachine 10))) /\
  Forall2 endsAs events
    (fst (run sampleFrames evenRaises neverRaises events
            (paintedMachine 10))).
Proof.
  cbv zeta. split; [unfold historyBounded; cbn; lia|].
  apply (history_stays_bounded sampleFrames evenRaises neverRaises).
  unfold historyBounded. cbn. lia.
Defined.

Example completions_of_a_run :
  fst (run sampleFrames evenRaises neverRaises
         [Click (Denied "NotAllowedError");
          Click (Granted sampleStream); SessionOpened 4;
          Inbound 4 0%Q (toolMessage [generateCall]);
          GenerateSettled initialRender "10:00:00" (Rejected "503");
          SessionErrored 4]
         (paintedMachine 10))
  = [Throw "NotAllowedError"; Normal tt; Normal tt; Normal tt; Normal tt;
     Normal tt].
Proof. reflexivity. Qed.

Lemma sources_stay_distinct_witness :
  let events :=
    [Inbound 2 (1 # 2)%Q (audioMessage "abcd" false);
     Inbound 2 (3 # 5)%Q (audioMessage "ef" true);
     Inbound 2 1%Q (audioMessage "g" false)] in
  sourcesDistinct playingMachine /\
  sourcesDistinct
    (snd (run sampleFrames evenRaises neverRaises events playingMachine)).
Proof.
  assert (H : sourcesDistinct playingMachine).
  { split; cbn.
    - repeat constructor.
    - repeat constructor; cbn; intros H; intuition discriminate. }
  cbv zeta. split; [exact H|].
  apply (sources_stay_distinct sampleFrames evenRaises neverRaises), H.
Defined.

Lemma schedule_stays_ordered_witness :
  let events :=
    [Inbound 2 (1 # 2)%Q (audioMessage "abcd" false);
     Click (Granted sampleStream);
     Click (Granted sampleStream);
     SessionOpened 9;
     Inbound 9 1%Q (audioMessage "g" false)] in
  scheduleOrdered playingMachine /\
  scheduleOrdered
    (snd (run sampleFrames evenRaises neverRaises events playingMachine)).
Proof.
  assert (H : scheduleOrdered playingMachine).
  { unfold scheduleOrdered, follows, Qle. cbn.
    split; [lia|]. split.
    - repeat constructor; cbn; lia.
    - repeat constructor; cbn; lia. }
  cbv zeta. split; [exact H|].
  apply (schedule_stays_ordered sampleFrames evenRaises neverRaises), H.
Defined.

Example session_run_ends_idle :
  voiceState
    (snd (run sampleFrames evenRaises neverRaises
            [Click (Granted sampleStream); SessionOpened 2;
             Inbound 2 0%Q (audioMessage "abcd" false);
             Inbound 2 (1 # 10)%Q (toolMessage [generateCall]);
             SessionErrored 2]
            initialMachine))
  = voiceState initialMachine.
Proof. reflexivity. Qed.

(** The file is chosen while the history holds A to J; QUJD is
    generated before the file has been read. *)
Lemma upload_loses_what_was_added_since_witness :
  let m := paintedMachine 10 in
  let newer := artifact (mkInlineData (Some "QUJD")) "10:00:00" in
  let file := "data:image/png;base64,REVG" in
  firstImage (oneImage "QUJD") = Some (mkInlineData (Some "QUJD")) /\
  ~ In newer (ImageState.history (imageState (react m))) /\
  newer <> uploaded file "10:00:05" /\
  exists m1 m2,
    generateImage_settle initialRender "10:00:00" (oneImage "QUJD") m
    = (Normal tt, m1) /\
    nth_error (ImageState.history (imageState (react m1))) 0 = Some newer /\
    handleImageUpload (react m) (Some file) "10:00:05" m1
    = (Normal tt, m2) /\
    nth_error (ImageState.history (imageState (react m2))) 0
    = Some (uploaded file "10:00:05") /\
    ~ In newer (ImageState.history (imageState (react m2))).
Proof.
  assert (Hnew : ~ In (artifact (mkInlineData (Some "QUJD")) "10:00:00")
                   (ImageState.history
                      (imageState (react (paintedMachine 10))))).
  { cbn. intros H. repeat (destruct H as [H|H]; [discriminate|]).
    exact H. }
  cbv zeta. split; [reflexivity|]. split; [exact Hnew|].
  split; [discriminate|].
  apply (upload_loses_what_was_added_since initialRender "10:00:00"
           (oneImage "QUJD") (mkInlineData (Some "QUJD"))
           "data:image/png;base64,REVG" "10:00:05" (paintedMachine 10));
    [reflexivity|exact Hnew|discriminate].
Defined.

Lemma session_callbacks_hold_a_clear_flag_witness :
  let events :=
    [Click (Denied "NotAllowedError");
     Click (Granted sampleStream); SessionOpened 4;
     Inbound 4 0%Q (toolMessage [generateCall])] in
  let m' := snd (run sampleFrames evenRaises neverRaises events
                   initialMachine) in
  callbacksOf (trace (world m')) 4 = Some (react (refused initialMachine)) /\
  isLiveActive (react m') = true /\
  isLiveActive (react (refused initialMachine)) = false /\
  status (react (snd (generateImage_settle (react (refused initialMachine))
                        "10:00:00" (oneImage "QUJD") m'))) = IDLE.
Proof.
  cbv zeta. split; [reflexivity|]. split; [reflexivity|].
  destruct (session_callbacks_hold_a_clear_flag sampleFrames evenRaises
              neverRaises
              [Click (Denied "NotAllowedError");
               Click (Granted sampleStream); SessionOpened 4;
               Inbound 4 0%Q (toolMessage [generateCall])]
              4 (react (refused initialMachine)) eq_refl)
    as [Hflag Hsettle].
  split; [exact Hflag|]. apply (proj1 (Hsettle _ _ _)).
Defined.
